(** * terraform-pr-generator: plan execution, plan-text scanning and report rendering

  A shallow embedding of [main.go].  Go strings are byte sequences and are
  modelled by [string] (a list of 8-bit [ascii]); Go maps are [gmap]s; the
  output directory of one run is a finite map from file name to content. *)

From Stdlib Require Import Ascii String List Bool Arith Lia.
From stdpp Require Import base list strings gmap fin_maps sorting.

Local Open Scope list_scope.

(** ** The parts of Go's [strings] package that [main.go] uses *)
Module GoStrings.

(** [strings.Contains(s, substr)]. *)
Fixpoint Contains (s substr : string) : bool :=
  String.prefix substr s ||
  match s with
  | EmptyString => false
  | String _ s' => Contains s' substr
  end.

Definition newline : ascii := "010"%char.

(** [strings.Split(s, "\n")]: the pieces between line feeds; a string without
    line feed, the empty one included, is a single piece. *)
Fixpoint Split (s : string) : list string :=
  match s with
  | EmptyString => [EmptyString]
  | String c s' =>
      if Ascii.eqb c newline then EmptyString :: Split s'
      else match Split s' with
           | [] => [String c EmptyString]
           | l :: ls => String c l :: ls
           end
  end.

(** [strings.Join(elems, "\n")]. *)
Definition Join (elems : list string) : string :=
  String.concat (String newline EmptyString) elems.

(** The [slice == item] scan of the helper [contains] at the end of [main.go]. *)
Fixpoint contains (slice : list string) (item : string) : bool :=
  match slice with
  | [] => false
  | s :: slice' => if String.eqb s item then true else contains slice' item
  end.

End GoStrings.

(** ** The fragment of Go regular expressions of the four patterns

  Literal bytes, one byte of a class, a greedy [+] over a class, and the
  parentheses of capture group 1.  A class such as [[^/]] ranges over runes
  in Go; every pattern here delimits the class by ASCII bytes, so the match
  extents over bytes and over runes agree. *)
Module Regexp.

Inductive item : Type :=
| Lit (c : ascii)
| Class (p : ascii -> bool)
| Plus (p : ascii -> bool)
| Open
| Close.

Definition lits (s : string) : list item := map Lit (list_ascii_of_string s).

Definition in_range (lo hi : nat) (c : ascii) : bool :=
  Nat.leb lo (nat_of_ascii c) && Nat.leb (nat_of_ascii c) hi.

(** [[a-z]], [[0-9]] and [[^/]]. *)
Definition lower : ascii -> bool := in_range 97 122.
Definition digit : ascii -> bool := in_range 48 57.
Definition not_slash (c : ascii) : bool := negb (Ascii.eqb c "/"%char).

Definition push (rec : bool) (c : ascii) (acc : list ascii) : list ascii :=
  if rec then c :: acc else acc.

(** Anchored backtracking match, leftmost-first as in Go: [Plus] takes as
    many bytes as it can and gives them back one at a time.  [acc] holds the
    bytes of group 1 read so far, last first. *)
Fixpoint run (items : list item) (rec : bool) (acc : list ascii) (s : string)
  {struct items} : option string :=
  match items with
  | [] => Some (string_of_list_ascii (rev acc))
  | Open :: k => run k true [] s
  | Close :: k => run k false acc s
  | Lit c :: k =>
      match s with
      | String c' s' => if Ascii.eqb c c' then run k rec (push rec c' acc) s' else None
      | EmptyString => None
      end
  | Class p :: k =>
      match s with
      | String c' s' => if p c' then run k rec (push rec c' acc) s' else None
      | EmptyString => None
      end
  | Plus p :: k =>
      (fix many (acc : list ascii) (s : string) {struct s} : option string :=
         match s with
         | String c' s' =>
             if p c' then
               match many (push rec c' acc) s' with
               | Some r => Some r
               | None => run k rec (push rec c' acc) s'
               end
             else None
         | EmptyString => None
         end) acc s
  end.

(** [re.FindStringSubmatch(s)] for a pattern with one group: [Some g] stands
    for the two-element slice [[whole; g]] (so [len(m) > 1] and [m[1] = g]),
    [None] for the nil slice.  The leftmost start position wins. *)
Fixpoint FindStringSubmatch (re : list item) (s : string) : option string :=
  match run re false [] s with
  | Some g => Some g
  | None =>
      match s with
      | EmptyString => None
      | String _ s' => FindStringSubmatch re s'
      end
  end.

(** [/organizations/([^/]+)/] *)
Definition envRegexCommercial : list item :=
  lits "/organizations/" ++ [Open; Plus not_slash; Close; Lit "/"%char].

(** [(govcloud-[^/]+)] *)
Definition envRegexGovcloud : list item :=
  [Open] ++ lits "govcloud-" ++ [Plus not_slash; Close].

(** [/([a-z]{2}-[a-z]+-[0-9])/] *)
Definition regionRegexCommercial : list item :=
  [Lit "/"%char; Open; Class lower; Class lower; Lit "-"%char; Plus lower;
   Lit "-"%char; Class digit; Close; Lit "/"%char].

(** [(us-gov-[a-z]+-[0-9])] *)
Definition regionRegexGovcloud : list item :=
  [Open] ++ lits "us-gov-" ++ [Plus lower; Lit "-"%char; Class digit; Close].

End Regexp.

(** ** The line scanner of [processPlansFile] *)
Module Scanner.
Import GoStrings.

(** [type Environment struct].  The map [environments] holds pointers to
    these; each is reachable through the map only, so the map of the model
    holds the records themselves. *)
Record Environment : Type := mkEnvironment {
  Name : string;
  Regions : list string;
  Plans : gmap string string
}.

(** What a closing line stores: the spec's ActionRecord. *)
Record ActionRecord : Type := mkRecord {
  environment : string;
  region : string;
  blockText : string
}.

(** The loop variables of [processPlansFile].  [emitted] is a history
    variable that the program does not have: it logs, in scan order, the
    triple of every store into [environments]. *)
Record ScanState : Type := mkScan {
  currentEnv : string;
  currentRegion : string;
  planLines : list string;
  inPlanSection : bool;
  environments : gmap string Environment;
  emitted : list ActionRecord
}.

Definition initial : ScanState :=
  mkScan "" "" [] false ∅ [].

Definition envRegex (isGovcloud : bool) : list Regexp.item :=
  if isGovcloud then Regexp.envRegexGovcloud else Regexp.envRegexCommercial.

Definition regionRegex (isGovcloud : bool) : list Regexp.item :=
  if isGovcloud then Regexp.regionRegexGovcloud else Regexp.regionRegexCommercial.

Definition headerPhrase : string := "Terraform will perform the following actions:".

Definition isHeader (line : string) : bool := Contains line headerPhrase.

(** The condition that ends a plan section. *)
Definition isFooter (line : string) : bool :=
  Contains line "Plan:" &&
  (Contains line "to add" || Contains line "to change" || Contains line "to destroy").

Definition nonEmpty (s : string) : bool := negb (String.eqb s "").

(** The two marker updates at the top of the loop body. *)
Definition updateMarkers (isGovcloud : bool) (line : string) (st : ScanState) : ScanState :=
  let env :=
    match Regexp.FindStringSubmatch (envRegex isGovcloud) line with
    | Some g => g
    | None => currentEnv st
    end in
  let reg :=
    match Regexp.FindStringSubmatch (regionRegex isGovcloud) line with
    | Some g => g
    | None => currentRegion st
    end in
  mkScan env reg (planLines st) (inPlanSection st) (environments st) (emitted st).

(** The body of [if currentEnv != "" && currentRegion != ""]: create the
    environment when it is missing, add the region when it is new, assign
    the block to [Plans[currentRegion]]. *)
Definition storeBlock (env reg text : string) (m : gmap string Environment)
  : gmap string Environment :=
  let e :=
    match m !! env with
    | Some e => e
    | None => mkEnvironment env [] ∅
    end in
  let regs := if contains (Regions e) reg then Regions e else Regions e ++ [reg] in
  <[env := mkEnvironment (Name e) regs (<[reg := text]> (Plans e))]> m.

(** The rest of the loop body, after the marker updates. *)
Definition collect (line : string) (st : ScanState) : ScanState :=
  if isHeader line then
    mkScan (currentEnv st) (currentRegion st) [line] true (environments st) (emitted st)
  else if inPlanSection st then
    let lines := planLines st ++ [line] in
    if isFooter line then
      if nonEmpty (currentEnv st) && nonEmpty (currentRegion st) then
        mkScan (currentEnv st) (currentRegion st) [] false
          (storeBlock (currentEnv st) (currentRegion st) (Join lines) (environments st))
          (emitted st ++ [mkRecord (currentEnv st) (currentRegion st) (Join lines)])
      else
        mkScan (currentEnv st) (currentRegion st) [] false (environments st) (emitted st)
    else
      mkScan (currentEnv st) (currentRegion st) lines true (environments st) (emitted st)
  else st.

(** One iteration of [for _, line := range lines]. *)
Definition scanLine (isGovcloud : bool) (st : ScanState) (line : string) : ScanState :=
  collect line (updateMarkers isGovcloud line st).

Definition scanFrom (isGovcloud : bool) (st : ScanState) (lines : list string) : ScanState :=
  fold_left (scanLine isGovcloud) lines st.

Definition scan (isGovcloud : bool) (content : string) : ScanState :=
  scanFrom isGovcloud initial (Split content).

(** The grouping that a sequence of records builds, one store each. *)
Definition assemble (recs : list ActionRecord) : gmap string Environment :=
  fold_left (fun m r => storeBlock (environment r) (region r) (blockText r) m) recs ∅.

End Scanner.

(** ** Rendering: the second half of [processPlansFile] *)
Module Report.
Import GoStrings Scanner.

Definition nl : string := String newline EmptyString.

Definition string_le (a b : string) : Prop := String.leb a b = true.

#[global] Instance string_le_dec (a b : string) : Decision (string_le a b).
Proof. unfold string_le. apply bool_eq_dec. Defined.

(** [sort.Strings]: increasing byte-wise order. *)
Definition sortStrings (l : list string) : list string := merge_sort string_le l.

(** The header line of an environment and the blank line after it. *)
Definition envHeader (moduleName : string) (env : Environment) : string :=
  "## [environment: " +:+ Name env +:+ "] - [command: kitman tg plan_all] - [module: "
    +:+ moduleName +:+ "]" +:+ nl +:+ nl.

Definition blockOpen (reg : string) : string :=
  "<details>" +:+ nl +:+ "<summary>" +:+ reg +:+ "</summary>" +:+ nl +:+ nl
    +:+ "```bash" +:+ nl.

Definition blockClose : string :=
  nl +:+ "```" +:+ nl +:+ nl +:+ "</details>" +:+ nl +:+ nl.

(** What the inner loop writes for one region: the three [WriteString]s when
    the region has a non-empty plan, nothing otherwise. *)
Definition renderRegion (env : Environment) (reg : string) : string :=
  match Plans env !! reg with
  | Some planContent =>
      if nonEmpty planContent then blockOpen reg +:+ planContent +:+ blockClose else ""
  | None => ""
  end.

Definition renderRegions (env : Environment) (regs : list string) : string :=
  String.concat "" (map (renderRegion env) regs).

Definition renderEnvironment (moduleName : string) (env : Environment) : string :=
  envHeader moduleName env +:+ renderRegions env (sortStrings (Regions env)).

(** The outer loop over sorted names.  Every name comes from the keys of
    [environments]; for a name that is no key Go would dereference nil. *)
Definition renderSorted (moduleName : string) (m : gmap string Environment)
  (names : list string) : string :=
  String.concat ""
    (map (fun n => match m !! n with
                   | Some env => renderEnvironment moduleName env
                   | None => ""
                   end) names).

(** Everything from [sort.Strings(envNames)] on, for the names in the order
    [envNames] in which [range environments] delivered them. *)
Definition render (moduleName : string) (m : gmap string Environment)
  (envNames : list string) : string :=
  renderSorted moduleName m (sortStrings envNames).

(** The keys of [environments], in the order of the map's own listing. *)
Definition keysOf (m : gmap string Environment) : list string :=
  (map_to_list m).*1.

(** The block that a record sequence leaves for an environment and a
    region: that of the last record with this pair. *)
Fixpoint lastBlock (recs : list ActionRecord) (env reg : string) : option string :=
  match recs with
  | [] => None
  | x :: rest =>
      match lastBlock rest env reg with
      | Some text => Some text
      | None =>
          if String.eqb (environment x) env && String.eqb (region x) reg
          then Some (blockText x) else None
      end
  end.

(** What the grouping of a record sequence holds under a name. *)
Definition groups (recs : list ActionRecord) (e : string) (o : option Environment) : Prop :=
  match o with
  | None => forall x, x ∈ recs -> environment x <> e
  | Some env =>
      Name env = e /\ NoDup (Regions env) /\
      (forall r, r ∈ Regions env <-> exists x, x ∈ recs /\ environment x = e /\ region x = r) /\
      (forall r, Plans env !! r = lastBlock recs e r) /\
      (exists x, x ∈ recs /\ environment x = e)
  end.

(** Two groupings that differ at most in the order in which the regions of
    an environment were first seen. *)
Definition sameEnvironment (e1 e2 : Environment) : Prop :=
  Name e1 = Name e2 /\ Plans e1 = Plans e2 /\ Regions e1 ≡ₚ Regions e2.

Definition sameGrouping (m1 m2 : gmap string Environment) : Prop :=
  forall k, option_Forall2 sameEnvironment (m1 !! k) (m2 !! k).

(** The report text of a record sequence, when [range environments]
    delivers the keys of a map [m] as [range m]. *)
Definition reportOf (range : gmap string Environment -> list string)
  (moduleName : string) (recs : list ActionRecord) : string :=
  render moduleName (assemble recs) (range (assemble recs)).

End Report.

(** ** Running the plan executor and writing the files of a run *)
Module Exec.
Import GoStrings Scanner Report.

Record PlanGenerator : Type := mkPlanGenerator {
  ModuleName : string;
  OutputDir : string;
  Verbose : bool
}.

(** What the run cannot decide by itself.  [Output argv] is the result of
    [exec.Command(argv...).Output()], captured standard output and error
    ([None] for nil); [createErr name] is the error, if any, of creating or
    overwriting the file [name] of the output directory; [rangeOrder m] is
    the order in which [for name := range m] delivers the keys of [m], which
    Go leaves to the runtime. *)
Record Host : Type := mkHost {
  Output : list string -> string * option string;
  createErr : string -> option string;
  rangeOrder : gmap string Environment -> list string;
  moduleDirExists : bool;
  mkdirErr : option string;
  affected : list string * option string
}.

(** The files of [pg.OutputDir], by the name joined to the directory, and
    the executor invocations started so far, oldest first. *)
Record World : Type := mkWorld {
  files : gmap string string;
  calls : list (list string)
}.

(** What Go promises of [range] over a map: every key, once. *)
Definition validRange (h : Host) : Prop :=
  forall m : gmap string Environment, rangeOrder h m ≡ₚ keysOf m.

Definition started (argv : list string) (w : World) : World :=
  mkWorld (files w) (calls w ++ [argv]).

(** [os.WriteFile] *)
Definition WriteFile (h : Host) (name data : string) (w : World) : option string * World :=
  match createErr h name with
  | Some e => (Some e, w)
  | None => (None, mkWorld (<[name := data]> (files w)) (calls w))
  end.

(** [file.Write] and [file.WriteString] on the open file [name]; the program
    drops their results. *)
Definition WriteString (name data : string) (w : World) : World :=
  mkWorld (<[name := default "" (files w !! name) +:+ data]> (files w)) (calls w).

(** [%v] of a [[]string]. *)
Definition fmtSlice (args : list string) : string :=
  "[" +:+ String.concat " " args +:+ "]".

Definition validateModule (h : Host) (pg : PlanGenerator) : option string :=
  let moduleDir := "terragrunt_" +:+ ModuleName pg in
  if moduleDirExists h then None
  else Some ("module " +:+ moduleDir +:+ " not found in current directory." +:+ nl
             +:+ "Make sure you're running this from the elon-modules root directory").

(** The discovery script and the parsing of its output stay outside; the run
    depends on the returned pair only. *)
Definition findAffectedPlans (h : Host) : list string * option string := affected h.

Definition runCommand (h : Host) (command : string) (args : list string)
  (outputFile : string) (w : World) : option string * World :=
  let '(output, err) := Output h (command :: args) in
  let w := started (command :: args) w in
  match err with
  | Some e =>
      (Some ("command failed: " +:+ command +:+ " " +:+ fmtSlice args +:+ " - " +:+ e), w)
  | None => WriteFile h outputFile output w
  end.

(** The two [if ...Err != nil] after [wg.Wait()], the same in [runPlanAll]
    and in [runTargetedPlans]. *)
Definition firstFailure (commercialErr govcloudErr : option string) : option string :=
  match commercialErr with
  | Some e => Some ("commercial plans failed: " +:+ e)
  | None =>
      match govcloudErr with
      | Some e => Some ("govcloud plans failed: " +:+ e)
      | None => None
      end
  end.

Definition commercialArgs (pg : PlanGenerator) : list string :=
  ["tg"; "plan_all"; "-m"; ModuleName pg; "--local"; "--pr"].

Definition govcloudArgs (pg : PlanGenerator) : list string :=
  ["tg"; "plan_all"; "-m"; ModuleName pg;
   "--organizations"; "govcloud-staging|govcloud-production";
   "--regions"; "us-gov-west-1"; "--local"; "--pr"].

(** The two goroutines of [runPlanAll] up to [wg.Wait()].  Each writes its
    own file and its own error variable, so the joined state is that of
    running one after the other; only the relative order of their entries
    in [calls] is a choice of this model. *)
Definition planAllGroups (h : Host) (pg : PlanGenerator) (w : World)
  : option string * option string * World :=
  let '(commercialErr, w) := runCommand h "kitman" (commercialArgs pg) "commercial-plans.txt" w in
  let '(govcloudErr, w) := runCommand h "kitman" (govcloudArgs pg) "govcloud-plans.txt" w in
  (commercialErr, govcloudErr, w).

Definition runPlanAll (h : Host) (pg : PlanGenerator) (w : World) : option string * World :=
  let '(commercialErr, govcloudErr, w) := planAllGroups h pg w in
  (firstFailure commercialErr govcloudErr, w).

(** The test of the first loop of [runTargetedPlans], as a predicate. *)
Definition isGovcloudPlan (p : string) : Prop := Contains p "govcloud" = true.

#[global] Instance isGovcloudPlan_dec p : Decision (isGovcloudPlan p).
Proof. unfold isGovcloudPlan. apply bool_eq_dec. Defined.

(** The first loop of [runTargetedPlans]; the pair is
    [(commercialPlans, govcloudPlans)]. *)
Definition partitionPlans (affectedPlans : list string) : list string * list string :=
  fold_left
    (fun '(commercialPlans, govcloudPlans) plan =>
       if Contains plan "govcloud" then (commercialPlans, govcloudPlans ++ [plan])
       else (commercialPlans ++ [plan], govcloudPlans))
    affectedPlans ([], []).

Definition planArgv (planDir : string) : list string :=
  ["kitman"; "tg"; "plan"; "--wd"; planDir; "--local"; "--pr"].

(** The loop of [runTargetedPlanGroup] over the open file [outputFile]. *)
Fixpoint planEach (h : Host) (plans : list string) (outputFile : string) (w : World)
  : option string * World :=
  match plans with
  | [] => (None, w)
  | planDir :: rest =>
      let '(output, err) := Output h (planArgv planDir) in
      let w := started (planArgv planDir) w in
      match err with
      | Some e => (Some ("failed to run plan for " +:+ planDir +:+ ": " +:+ e), w)
      | None =>
          planEach h rest outputFile
            (WriteString outputFile nl (WriteString outputFile output w))
      end
  end.

(** What the loop has written once every plan of [plans] succeeded: each
    output followed by the line feed of [file.WriteString("\n")]. *)
Definition planOutputs (h : Host) (plans : list string) : string :=
  String.concat "" (map (fun p => (Output h (planArgv p)).1 +:+ nl) plans).

(** The executor exits with status 0 on [planDir]. *)
Definition succeeds (h : Host) (planDir : string) : Prop :=
  (Output h (planArgv planDir)).2 = None.

Definition runTargetedPlanGroup (h : Host) (plans : list string) (outputFile : string)
  (w : World) : option string * World :=
  match createErr h outputFile with
  | Some e => (Some e, w)
  | None => planEach h plans outputFile (mkWorld (<[outputFile := ""]> (files w)) (calls w))
  end.

(** One group of [runTargetedPlans]: the goroutine when the group has plans,
    the placeholder file (its write error dropped) when it has none. *)
Definition targetedGroup (h : Host) (plans : list string) (outputFile placeholder : string)
  (w : World) : option string * World :=
  match plans with
  | _ :: _ => runTargetedPlanGroup h plans outputFile w
  | [] => (None, snd (WriteFile h outputFile placeholder w))
  end.

Definition targetedGroups (h : Host) (affectedPlans : list string) (w : World)
  : option string * option string * World :=
  let '(commercialPlans, govcloudPlans) := partitionPlans affectedPlans in
  let '(commercialErr, w) :=
    targetedGroup h commercialPlans "commercial-plans.txt"
      ("No commercial plans needed" +:+ nl) w in
  let '(govcloudErr, w) :=
    targetedGroup h govcloudPlans "govcloud-plans.txt"
      ("No GovCloud plans needed" +:+ nl) w in
  (commercialErr, govcloudErr, w).

Definition runTargetedPlans (h : Host) (affectedPlans : list string) (w : World)
  : option string * World :=
  let '(commercialErr, govcloudErr, w) := targetedGroups h affectedPlans w in
  (firstFailure commercialErr govcloudErr, w).

(** What [processPlansFile] writes for a file content that it does not
    skip: scan, collect the names, sort, render.  The [WriteString]s of the
    two loops append to one file, so they amount to one write of the whole. *)
Definition planReport (h : Host) (pg : PlanGenerator) (isGovcloud : bool)
  (contentStr : string) : string :=
  let environments := environments (scan isGovcloud contentStr) in
  render (ModuleName pg) environments (rangeOrder h environments).

(** [processPlansFile]: [output] names the open report file. *)
Definition processPlansFile (h : Host) (pg : PlanGenerator) (filename output : string)
  (isGovcloud : bool) (w : World) : option string * World :=
  match files w !! filename with
  | None => (None, w)
  | Some contentStr =>
      if String.eqb contentStr "" then (None, w)
      else if Contains contentStr "No commercial plans needed"
              || Contains contentStr "No GovCloud plans needed" then (None, w)
      else (None, WriteString output (planReport h pg isGovcloud contentStr) w)
  end.

Definition generatePRMarkdown (h : Host) (pg : PlanGenerator) (w : World)
  : option string * World :=
  match createErr h "pr-ready.md" with
  | Some e => (Some e, w)
  | None =>
      let w := mkWorld (<["pr-ready.md" := ""]> (files w)) (calls w) in
      let w := WriteString "pr-ready.md" ("**Terraform plan**" +:+ nl +:+ nl) w in
      match processPlansFile h pg "commercial-plans.txt" "pr-ready.md" false w with
      | (Some e, w) => (Some ("error processing commercial plans: " +:+ e), w)
      | (None, w) =>
          match processPlansFile h pg "govcloud-plans.txt" "pr-ready.md" true w with
          | (Some e, w) => (Some ("error processing govcloud plans: " +:+ e), w)
          | (None, w) => (None, w)
          end
      end
  end.

(** The [if targeted] block of [runPlanGenerator]: the plans of a targeted
    run, or [None] when the run is, or falls back to, the batch run. *)
Definition targetedPlans (h : Host) (targeted : bool) : option (list string) :=
  if targeted then
    let '(affectedPlans, err) := findAffectedPlans h in
    match err with
    | Some _ => None
    | None => if Nat.eqb (length affectedPlans) 0 then None else Some affectedPlans
    end
  else None.

(** The plan step of [runPlanGenerator]. *)
Definition runPlans (h : Host) (pg : PlanGenerator) (targeted : bool) (w : World)
  : option string * World :=
  match targetedPlans h targeted with
  | Some affectedPlans => runTargetedPlans h affectedPlans w
  | None => runPlanAll h pg w
  end.

(** The outcomes of the two groups in the plan step, before they are
    merged into one error. *)
Definition planGroups (h : Host) (pg : PlanGenerator) (targeted : bool) (w : World)
  : option string * option string * World :=
  match targetedPlans h targeted with
  | Some affectedPlans => targetedGroups h affectedPlans w
  | None => planAllGroups h pg w
  end.

Definition exactlyOneFailed (commercialErr govcloudErr : option string) : Prop :=
  (commercialErr = None /\ govcloudErr <> None) \/
  (commercialErr <> None /\ govcloudErr = None).

(** [runPlanGenerator], without its console output: the exit status of the
    process ([os.Exit(1)], or 0 when the command returns) and the files. *)
Definition runPlanGenerator (h : Host) (pg : PlanGenerator) (targeted : bool) (w : World)
  : nat * World :=
  match validateModule h pg with
  | Some _ => (1, w)
  | None =>
      match mkdirErr h with
      | Some _ => (1, w)
      | None =>
          match runPlans h pg targeted w with
          | (Some _, w) => (1, w)
          | (None, w) =>
              match generatePRMarkdown h pg w with
              | (Some _, w) => (1, w)
              | (None, w) => (0, w)
              end
          end
      end
  end.

End Exec.

(** ** Sentences of the specification that the program does not follow

  Each is written down as the specification words it, to be compared with
  the definitions above. *)
Module Claimed.
Import GoStrings Scanner Report Exec.

(** "The block is closed exactly when the line contains Plan: together with
    one of the three change-count phrases", for a line read inside a block. *)
Definition closedExactlyOnFooter (isGovcloud : bool) (st : ScanState) (line : string) : Prop :=
  inPlanSection st = true ->
  (inPlanSection (scanLine isGovcloud st line) = false <-> isFooter line = true).

(** "A new header line inside a block: the buffer continues to grow, the
    lines before it are retained and the block emitted at the next closing
    line contains both blocks."  [before] leads into a block, [header] is the
    second header, [body] and [footer] are the rest of the block. *)
Definition blockSpansHeaders (isGovcloud : bool) (before : list string) (header : string)
  (body : list string) (footer : string) : Prop :=
  let st := scanFrom isGovcloud initial before in
  inPlanSection st = true -> isHeader header = true ->
  planLines (scanLine isGovcloud st header) = planLines st ++ [header] /\
  exists env reg,
    last (emitted (scanFrom isGovcloud initial (before ++ header :: body ++ [footer])))
    = Some (mkRecord env reg (Join (planLines st ++ header :: body ++ [footer]))).

(** "If exactly one group fails, the run reports overall failure, and
    report generation still runs over the successful group's buffer." *)
Definition reportStillGenerated (h : Host) (pg : PlanGenerator) (targeted : bool)
  (w : World) : Prop :=
  forall commercialErr govcloudErr w1,
    planGroups h pg targeted w = (commercialErr, govcloudErr, w1) ->
    exactlyOneFailed commercialErr govcloudErr ->
    (runPlanGenerator h pg targeted w).1 = 1 /\
    (runPlanGenerator h pg targeted w).2 = (generatePRMarkdown h pg w1).2.

(** "When both groups fail, the orchestrator's error reports both causes." *)
Definition reportsBothCauses (commercialErr govcloudErr surfaced : option string) : Prop :=
  forall c1 c2, commercialErr = Some c1 -> govcloudErr = Some c2 ->
    exists e, surfaced = Some e /\ Contains e c1 = true /\ Contains e c2 = true.

(** "The buffer is the outputs in input order, with [sep] between
    consecutive outputs only, not after the last one." *)
Definition separatedOutputs (sep : string) (h : Host) (plans : list string) : string :=
  String.concat sep (map (fun p => (Output h (planArgv p)).1) plans).

End Claimed.

(** ** Sample inputs *)
Module Samples.
Import GoStrings Scanner Report Exec.

Definition markerLine : string := "Planning /aws/organizations/staging/eu-west-1/s3_malware_protection".
Definition headerLine : string := "Terraform will perform the following actions:".
Definition footerLine : string := "Plan: 9 to add, 0 to change, 0 to destroy.".

(** A line that holds both the header phrase and a plan summary. *)
Definition headerFooterLine : string :=
  "Terraform will perform the following actions: Plan: 1 to add".

(** The scanner after a marker line, a header and one line of a block. *)
Definition insideBlock : ScanState :=
  scanFrom false initial [markerLine; headerLine; "  + first"].

(** A group's captured text: one plan under a staging path. *)
Definition planText : string :=
  markerLine +:+ nl +:+ headerLine +:+ nl +:+ "  + resource" +:+ nl +:+ footerLine +:+ nl.

Definition pg : PlanGenerator := mkPlanGenerator "s3_malware_protection" "pr-plans" false.

Definition emptyWorld : World := mkWorld ∅ [].

(** A host whose govcloud runs succeed and whose commercial runs exit with
    status 1; a targeted run finds one plan of each class. *)
Definition commercialDown : Host :=
  mkHost
    (fun argv =>
       if contains argv "--organizations" then (planText, None)
       else if contains argv "aws/govcloud-staging/us-gov-west-1/s3" then (planText, None)
       else ("", Some "exit status 1"))
    (fun _ => None) keysOf true None
    (["aws/staging/eu-west-1/s3"; "aws/govcloud-staging/us-gov-west-1/s3"], None).

(** A host on which the commercial batch run exits with status 1 and the
    govcloud batch run with status 2. *)
Definition bothDown : Host :=
  mkHost
    (fun argv =>
       if contains argv "--organizations" then ("", Some "exit status 2")
       else ("", Some "exit status 1"))
    (fun _ => None) keysOf true None ([], None).

(** A host on which every plan prints its directory, except the plans of a
    directory named [broken], which exit with status 1. *)
Definition oneBroken : Host :=
  mkHost
    (fun argv =>
       if contains argv "broken" then ("", Some "exit status 1")
       else ("planned " +:+ String.concat " " (drop 4 (take 5 argv)) +:+ nl, None))
    (fun _ => None) keysOf true None (["a"; "b"; "broken"; "c"], None).

(** A host like [commercialDown] whose map iteration delivers the keys in
    the opposite order. *)
Definition reversedRange : Host :=
  mkHost (Output commercialDown) (createErr commercialDown)
    (fun m => reverse (keysOf m)) true None (affected commercialDown).

(** Plans of two environments, the later one first in byte order. *)
Definition twoEnvironments : string :=
  "Planning /aws/organizations/staging/us-east-1/s3" +:+ nl +:+
  headerLine +:+ nl +:+ "  + one" +:+ nl +:+ footerLine +:+ nl +:+
  "Planning /aws/organizations/staging/eu-west-1/s3" +:+ nl +:+
  headerLine +:+ nl +:+ "  + two" +:+ nl +:+ footerLine +:+ nl +:+
  "Planning /aws/organizations/production/eu-west-1/s3" +:+ nl +:+
  headerLine +:+ nl +:+ "  + three" +:+ nl +:+ footerLine +:+ nl.

Definition oldBlock : ActionRecord := mkRecord "staging" "eu-west-1" "old block".
Definition otherBlock : ActionRecord := mkRecord "staging" "us-east-1" "other block".
Definition newBlock : ActionRecord := mkRecord "staging" "eu-west-1" "new block".

(** An output directory whose commercial file is real plan output that
    happens to quote the govcloud placeholder. *)
Definition quotedPlaceholder : World :=
  mkWorld
    {[ "commercial-plans.txt" :=
         planText +:+ "  # No GovCloud plans needed for this bucket" +:+ nl;
       "pr-ready.md" := "**Terraform plan**" +:+ nl +:+ nl ]}
    [].

End Samples.

(** ** Shapes of what the scanner reads and stores *)
Module Shapes.
Import GoStrings Scanner Report.

(** A line strictly inside a block: no header phrase, no plan summary. *)
Definition isMiddle (line : string) : Prop :=
  isHeader line = false /\ isFooter line = false.

(** The lines of a stored block: a header line, lines that neither start
    nor end a block, and a closing line without the header phrase. *)
Definition blockLines (lines : list string) : Prop :=
  exists h body f,
    lines = h :: body ++ [f] /\ isHeader h = true /\ Forall isMiddle body /\
    isHeader f = false /\ isFooter f = true.

(** The value of a marker variable after the lines [lines], when it held
    [current] before: the capture of the last line that matches. *)
Definition latest (re : list Regexp.item) (lines : list string) (current : string) : string :=
  fold_left
    (fun cur line =>
       match Regexp.FindStringSubmatch re line with
       | Some g => g
       | None => cur
       end) lines current.

(** [lines] holds [block] as consecutive lines. *)
Definition consecutiveIn (block lines : list string) : Prop :=
  exists pre post, lines = pre ++ block ++ post.

(** Every byte of [s] is in the class [p]. *)
Definition allOf (p : ascii -> bool) (s : string) : Prop :=
  Forall (fun c => p c = true) (list_ascii_of_string s).

(** The bytes of group 1 after [taken] was read, last first. *)
Definition pushAll (rec : bool) (taken : string) (acc : list ascii) : list ascii :=
  if rec then rev (list_ascii_of_string taken) ++ acc else acc.

(** The form of a region that the commercial pattern captures: two lower-case
    letters, a dash, lower-case letters, a dash, a digit. *)
Definition commercialRegion (g : string) : Prop :=
  exists a b mid d,
    g = String a (String b ("-" +:+ mid +:+ "-" +:+ String d "")) /\
    Regexp.lower a = true /\ Regexp.lower b = true /\
    mid <> "" /\ allOf Regexp.lower mid /\ Regexp.digit d = true.

(** The form of a region that the govcloud pattern captures. *)
Definition govcloudRegion (g : string) : Prop :=
  exists mid d,
    g = "us-gov-" +:+ mid +:+ "-" +:+ String d "" /\
    mid <> "" /\ allOf Regexp.lower mid /\ Regexp.digit d = true.

(** A record stored while reading the lines [seen]: both markers were set
    and its text is the join of a block that stands in [seen]. *)
Definition goodRecord (seen : list string) (r : ActionRecord) : Prop :=
  environment r <> "" /\ region r <> "" /\
  exists block, blockLines block /\ consecutiveIn block seen /\ blockText r = Join block.

(** What holds of the loop variables after the lines [seen]: inside a
    block the buffer is the end of [seen], from the last header line on. *)
Definition scanInv (seen : list string) (st : ScanState) : Prop :=
  (inPlanSection st = true ->
   exists pre h body,
     seen = pre ++ planLines st /\ planLines st = h :: body /\
     isHeader h = true /\ Forall isMiddle body) /\
  Forall (goodRecord seen) (emitted st).

End Shapes.

(** ** What a run writes, put together *)
Module RunShapes.
Import GoStrings Scanner Report Exec.

(** The first line that [generatePRMarkdown] writes. *)
Definition reportTitle : string := "**Terraform plan**" +:+ nl +:+ nl.

(** Whether [processPlansFile] skips a group file: missing, empty, or
    holding one of the two placeholder texts. *)
Definition skipped (file : option string) : bool :=
  match file with
  | None => true
  | Some contentStr =>
      String.eqb contentStr "" ||
      Contains contentStr "No commercial plans needed" ||
      Contains contentStr "No GovCloud plans needed"
  end.

(** The part of the report that belongs to one group file. *)
Definition sectionsOf (h : Host) (pg : PlanGenerator) (isGovcloud : bool)
  (file : option string) : string :=
  match file with
  | Some contentStr =>
      if skipped file then "" else planReport h pg isGovcloud contentStr
  | None => ""
  end.

(** What one group does to the output directory, whatever else is in it:
    its error, the new content of its own file if it creates or overwrites
    it, and the invocations it starts. *)
Record Effect : Type := mkEffect {
  failure : option string;
  written : option string;
  invoked : list (list string)
}.

Definition applyEffect (f : string) (e : Effect) (w : World) : option string * World :=
  (failure e,
   mkWorld (match written e with
            | Some c => <[f := c]> (files w)
            | None => files w
            end)
           (calls w ++ invoked e)).

(** The effect of the loop of [runTargetedPlanGroup] on a file that holds
    [c]: the outputs up to the first failing plan are appended. *)
Fixpoint planEachEffect (h : Host) (plans : list string) (c : string) : Effect :=
  match plans with
  | [] => mkEffect None (Some c) []
  | planDir :: rest =>
      match Output h (planArgv planDir) with
      | (_, Some e) =>
          mkEffect (Some ("failed to run plan for " +:+ planDir +:+ ": " +:+ e))
            (Some c) [planArgv planDir]
      | (output, None) =>
          let r := planEachEffect h rest ((c +:+ output) +:+ nl) in
          mkEffect (failure r) (written r) (planArgv planDir :: invoked r)
      end
  end.

Definition targetedGroupEffect (h : Host) (plans : list string) (f placeholder : string)
  : Effect :=
  match plans with
  | [] =>
      match createErr h f with
      | Some _ => mkEffect None None []
      | None => mkEffect None (Some placeholder) []
      end
  | _ :: _ =>
      match createErr h f with
      | Some e => mkEffect (Some e) None []
      | None => planEachEffect h plans ""
      end
  end.

Definition runCommandEffect (h : Host) (command : string) (args : list string)
  (f : string) : Effect :=
  match Output h (command :: args) with
  | (_, Some e) =>
      mkEffect
        (Some ("command failed: " +:+ command +:+ " " +:+ fmtSlice args +:+ " - " +:+ e))
        None [command :: args]
  | (output, None) =>
      match createErr h f with
      | Some e => mkEffect (Some e) None [command :: args]
      | None => mkEffect None (Some output) [command :: args]
      end
  end.

End RunShapes.

(** ** Discovery: [findAffectedPlans] *)
Module Discovery.
Import GoStrings.

(** The six white space bytes of ASCII: tab, line feed, vertical tab, form
    feed, carriage return, space. *)
Definition asciiSpace (c : ascii) : bool :=
  let n := nat_of_ascii c in
  (Nat.leb 9 n && Nat.leb n 13) || Nat.eqb n 32.

(** The width in bytes of the white space rune ([unicode.IsSpace]) that
    starts [s], 0 when none does.  Beyond ASCII these are U+0085 and U+00A0
    (two bytes in UTF-8), U+1680, U+2000 to U+200A, U+2028, U+2029, U+202F,
    U+205F and U+3000 (three bytes).  Each starts with a lead byte, which is
    never inside another rune, so Go's walk over runes and this look at the
    bytes find the same white space. *)
Definition spaceWidth (s : string) : nat :=
  match s with
  | EmptyString => 0
  | String c1 s1 =>
      let b1 := nat_of_ascii c1 in
      if asciiSpace c1 then 1
      else
        match s1 with
        | EmptyString => 0
        | String c2 s2 =>
            let b2 := nat_of_ascii c2 in
            if Nat.eqb b1 194 && (Nat.eqb b2 133 || Nat.eqb b2 160) then 2
            else
              match s2 with
              | EmptyString => 0
              | String c3 _ =>
                  let b3 := nat_of_ascii c3 in
                  if (Nat.eqb b1 225 && Nat.eqb b2 154 && Nat.eqb b3 128)
                     || (Nat.eqb b1 226 && Nat.eqb b2 128 &&
                         ((Nat.leb 128 b3 && Nat.leb b3 138)
                          || Nat.eqb b3 168 || Nat.eqb b3 169 || Nat.eqb b3 175))
                     || (Nat.eqb b1 226 && Nat.eqb b2 129 && Nat.eqb b3 159)
                     || (Nat.eqb b1 227 && Nat.eqb b2 128 && Nat.eqb b3 128)
                  then 3 else 0
              end
        end
  end.

Definition flush (cur : string) : list string :=
  if String.eqb cur "" then [] else [cur].

(** [strings.Fields] from inside the text: [skip] bytes of a white space
    rune are still to pass, [cur] is the field read so far. *)
Fixpoint fieldsFrom (skip : nat) (cur : string) (s : string) : list string :=
  match s with
  | EmptyString => flush cur
  | String c s1 =>
      match skip with
      | S k => fieldsFrom k cur s1
      | 0 =>
          match spaceWidth s with
          | 0 => fieldsFrom 0 (cur +:+ String c EmptyString) s1
          | S k => flush cur ++ fieldsFrom k EmptyString s1
          end
      end
  end.

(** [strings.Fields(s)]: the maximal pieces without white space. *)
Definition Fields (s : string) : list string := fieldsFrom 0 EmptyString s.

(** The text after its leading white space. *)
Fixpoint trimLeftFrom (skip : nat) (s : string) : string :=
  match s with
  | EmptyString => EmptyString
  | String c s1 =>
      match skip with
      | S k => trimLeftFrom k s1
      | 0 =>
          match spaceWidth s with
          | 0 => s
          | S k => trimLeftFrom k s1
          end
      end
  end.

(** The text before its trailing white space: a byte is kept when what
    starts at it is not white space to the end. *)
Fixpoint trimRight (s : string) : string :=
  match s with
  | EmptyString => EmptyString
  | String c s1 =>
      if String.eqb (trimLeftFrom 0 s) "" then EmptyString else String c (trimRight s1)
  end.

(** [strings.TrimSpace(s)] *)
Definition TrimSpace (s : string) : string := trimRight (trimLeftFrom 0 s).

(** [s] without its first [n] bytes. *)
Fixpoint dropBytes (n : nat) (s : string) : string :=
  match n, s with
  | S k, String _ s1 => dropBytes k s1
  | _, _ => s
  end.

(** [strings.Replace(s, old, "", 1)] for a non-empty [old]: the first
    occurrence of [old] is cut out. *)
Fixpoint cutFirst (old : string) (s : string) : string :=
  if String.prefix old s then dropBytes (String.length old) s
  else
    match s with
    | EmptyString => EmptyString
    | String c s1 => String c (cutFirst old s1)
    end.

(** The inner loop over [parts]: the part after the first "-w" that has a
    part after it. *)
Fixpoint afterW (parts : list string) : option string :=
  match parts with
  | [] => None
  | part :: rest =>
      if String.eqb part "-w" then
        match rest with
        | next :: _ => Some next
        | [] => None
        end
      else afterW rest
  end.

(** The body of the scanner loop for one text: the plan path that the line
    adds, if any. *)
Definition planOfLine (text : string) : option string :=
  let line := TrimSpace text in
  if Contains line "kitman tg plan" then
    match afterW (Fields line) with
    | Some next => Some (cutFirst "/terragrunt.hcl" next)
    | None => None
    end
  else None.

(** The scanner loop over the texts that [scanner.Text()] delivers. *)
Definition parsePlans (texts : list string) : list string :=
  fold_left
    (fun plans text =>
       match planOfLine text with
       | Some planPath => plans ++ [planPath]
       | None => plans
       end) texts [].

(** What [findAffectedPlans] meets: whether [./affected-modules.sh] exists,
    the error of running it, and the texts that the line scanner delivers
    for its output, in order. *)
Record Script : Type := mkScript {
  scriptExists : bool;
  scriptErr : option string;
  scriptTexts : list string
}.

Definition findAffectedPlansOf (sc : Script) : list string * option string :=
  if scriptExists sc then
    match scriptErr sc with
    | Some e => ([], Some ("failed to run affected-modules.sh: " +:+ e))
    | None => (parsePlans (scriptTexts sc), None)
    end
  else ([], Some "affected-modules.sh not found in current directory").





End Discovery.

(** * Properties *)

(** ** Strings *)
Module StringFacts.
Import GoStrings Report.

Lemma append_String (x : ascii) (a b : string) : String x a +:+ b = String x (a +:+ b).
Proof. reflexivity. Qed.

Lemma append_assoc (a b c : string) : (a +:+ b) +:+ c = a +:+ (b +:+ c).
Proof. induction a as [|x a IH]; [reflexivity | by rewrite !append_String, IH]. Qed.

Lemma append_nil_r (a : string) : a +:+ "" = a.
Proof. induction a as [|x a IH]; [reflexivity | by rewrite append_String, IH]. Qed.

Lemma concat_cons (x : string) (l : list string) :
  String.concat "" (x :: l) = x +:+ String.concat "" l.
Proof. destruct l; simpl; [by rewrite append_nil_r | reflexivity]. Qed.

Lemma concat_app (l k : list string) :
  String.concat "" (l ++ k) = String.concat "" l +:+ String.concat "" k.
Proof.
  induction l as [|x l IH]; [reflexivity |].
  rewrite <- app_comm_cons, !concat_cons, IH. by rewrite append_assoc.
Qed.

(** A piece of a concatenation sits between what comes before and after. *)
Lemma concat_map_elem {A} (f : A -> string) (l : list A) (x : A) :
  x ∈ l -> exists pre post, String.concat "" (map f l) = pre +:+ f x +:+ post.
Proof.
  intros [l1 [l2 ->]]%list_elem_of_split.
  exists (String.concat "" (map f l1)), (String.concat "" (map f l2)).
  by rewrite map_app, concat_app, map_cons, concat_cons.
Qed.

Lemma nonEmpty_true (s : string) : Scanner.nonEmpty s = true <-> s <> "".
Proof.
  unfold Scanner.nonEmpty. rewrite negb_true_iff. apply String.eqb_neq.
Qed.

End StringFacts.

(** ** The four patterns on lines of plan output *)
Module RegexpFacts.
Import GoStrings Regexp.

Example env_commercial :
  FindStringSubmatch envRegexCommercial "/aws/organizations/staging/eu-west-1/s3"
  = Some "staging".
Proof. reflexivity. Qed.

(** An empty path segment after [organizations] does not match; the next
    start position does. *)
Example env_commercial_leftmost :
  FindStringSubmatch envRegexCommercial "/organizations//organizations/prod/x"
  = Some "prod".
Proof. reflexivity. Qed.

Example env_commercial_unterminated :
  FindStringSubmatch envRegexCommercial "/organizations/staging" = None.
Proof. reflexivity. Qed.

Example region_commercial :
  FindStringSubmatch regionRegexCommercial "/aws/organizations/staging/eu-west-1/s3"
  = Some "eu-west-1".
Proof. reflexivity. Qed.

Example region_commercial_two_digits :
  FindStringSubmatch regionRegexCommercial "/eu-west-12/" = None.
Proof. reflexivity. Qed.

Example env_govcloud :
  FindStringSubmatch envRegexGovcloud "/aws/organizations/govcloud-staging/us-gov-west-1/s3"
  = Some "govcloud-staging".
Proof. reflexivity. Qed.

(** Without a slash after it the class runs to the end of the line. *)
Example env_govcloud_greedy :
  FindStringSubmatch envRegexGovcloud "org govcloud-production plans" =
  Some "govcloud-production plans".
Proof. reflexivity. Qed.

Example region_govcloud :
  FindStringSubmatch regionRegexGovcloud "/aws/organizations/govcloud-staging/us-gov-west-1/s3"
  = Some "us-gov-west-1".
Proof. reflexivity. Qed.

Example split_trailing_newline :
  Split ("a" +:+ String newline "b" +:+ String newline "") = ["a"; "b"; ""].
Proof. reflexivity. Qed.

Example contains_inside : Contains "xx Plan: 1 to add" "Plan:" = true.
Proof. reflexivity. Qed.

End RegexpFacts.

(** ** The partition of the affected plans *)
Module PartitionFacts.
Import GoStrings Exec.

Lemma partition_step (l : list string) (c g : list string) :
  fold_left
    (fun '(commercialPlans, govcloudPlans) plan =>
       if Contains plan "govcloud" then (commercialPlans, govcloudPlans ++ [plan])
       else (commercialPlans ++ [plan], govcloudPlans))
    l (c, g)
  = (c ++ filter (fun p => ~ isGovcloudPlan p) l, g ++ filter isGovcloudPlan l).
Proof.
  revert c g; induction l as [|p l IH]; intros c g; simpl.
  - by rewrite !app_nil_r.
  - rewrite !filter_cons.
    destruct (decide (isGovcloudPlan p)) as [Hp|Hp].
    + rewrite decide_False by (intros Hn; by apply Hn).
      unfold isGovcloudPlan in Hp. rewrite Hp, IH. by rewrite <- app_assoc.
    + rewrite decide_True by done.
      apply not_true_is_false in Hp. rewrite Hp, IH. by rewrite <- app_assoc.
Qed.

Lemma partition_filter (l : list string) :
  partitionPlans l = (filter (fun p => ~ isGovcloudPlan p) l, filter isGovcloudPlan l).
Proof. unfold partitionPlans. by rewrite partition_step. Qed.

(** C5.  The two lists that [runTargetedPlans] builds hold together exactly
    the input (as a multiset), share no target, put a target in the govcloud
    list exactly when its name contains "govcloud", and keep the input order:
    each is the input with the targets of the other class left out. *)
Theorem partition_exact (affectedPlans : list string) :
  let commercialPlans := (partitionPlans affectedPlans).1 in
  let govcloudPlans := (partitionPlans affectedPlans).2 in
  commercialPlans ++ govcloudPlans ≡ₚ affectedPlans /\
  (forall p, p ∈ commercialPlans -> p ∉ govcloudPlans) /\
  (forall p, p ∈ govcloudPlans <-> p ∈ affectedPlans /\ Contains p "govcloud" = true) /\
  (forall p, p ∈ commercialPlans <-> p ∈ affectedPlans /\ Contains p "govcloud" = false) /\
  commercialPlans = filter (fun p => ~ isGovcloudPlan p) affectedPlans /\
  govcloudPlans = filter isGovcloudPlan affectedPlans /\
  sublist commercialPlans affectedPlans /\
  sublist govcloudPlans affectedPlans.
Proof.
  rewrite partition_filter; simpl.
  assert (Hg : forall p, p ∈ filter isGovcloudPlan affectedPlans
                         <-> p ∈ affectedPlans /\ Contains p "govcloud" = true).
  { intros p. rewrite list_elem_of_filter. unfold isGovcloudPlan. tauto. }
  assert (Hc : forall p, p ∈ filter (fun p => ~ isGovcloudPlan p) affectedPlans
                         <-> p ∈ affectedPlans /\ Contains p "govcloud" = false).
  { intros p. rewrite list_elem_of_filter. unfold isGovcloudPlan.
    rewrite not_true_iff_false. tauto. }
  repeat split; try (by apply Hg); try (by apply Hc); try (apply sublist_filter).
  - rewrite Permutation_app_comm. apply filter_app_complement.
  - intros p [_ Hp]%Hc [_ Hp']%Hg. congruence.
Qed.

End PartitionFacts.

(** ** The scanner, line by line *)
Module ScannerFacts.
Import GoStrings Scanner StringFacts.

Lemma updateMarkers_keeps (isGovcloud : bool) (line : string) (st : ScanState) :
  planLines (updateMarkers isGovcloud line st) = planLines st /\
  inPlanSection (updateMarkers isGovcloud line st) = inPlanSection st /\
  environments (updateMarkers isGovcloud line st) = environments st /\
  emitted (updateMarkers isGovcloud line st) = emitted st.
Proof. by unfold updateMarkers. Qed.

(** [collect] never touches the two markers. *)
Lemma collect_markers (line : string) (st : ScanState) :
  currentEnv (collect line st) = currentEnv st /\
  currentRegion (collect line st) = currentRegion st.
Proof.
  unfold collect.
  destruct (isHeader line), (inPlanSection st), (isFooter line),
    (nonEmpty (currentEnv st) && nonEmpty (currentRegion st)); by simpl.
Qed.

Lemma scanLine_markers (isGovcloud : bool) (st : ScanState) (line : string) :
  currentEnv (scanLine isGovcloud st line) = currentEnv (updateMarkers isGovcloud line st) /\
  currentRegion (scanLine isGovcloud st line) = currentRegion (updateMarkers isGovcloud line st).
Proof. apply collect_markers. Qed.

(** A header line starts the buffer afresh, whatever the state. *)
Lemma scanLine_header (isGovcloud : bool) (st : ScanState) (line : string) :
  isHeader line = true ->
  planLines (scanLine isGovcloud st line) = [line] /\
  inPlanSection (scanLine isGovcloud st line) = true /\
  environments (scanLine isGovcloud st line) = environments st /\
  emitted (scanLine isGovcloud st line) = emitted st.
Proof. intros H. unfold scanLine, collect. rewrite H. by simpl. Qed.

(** A line inside a block that neither starts nor ends one is appended. *)
Lemma scanLine_inside (isGovcloud : bool) (st : ScanState) (line : string) :
  inPlanSection st = true -> isHeader line = false -> isFooter line = false ->
  planLines (scanLine isGovcloud st line) = planLines st ++ [line] /\
  inPlanSection (scanLine isGovcloud st line) = true /\
  environments (scanLine isGovcloud st line) = environments st /\
  emitted (scanLine isGovcloud st line) = emitted st.
Proof.
  intros Hin Hh Hf. unfold scanLine, collect. rewrite Hh, Hf.
  destruct (updateMarkers_keeps isGovcloud line st) as (-> & -> & -> & ->).
  rewrite Hin. by simpl.
Qed.

Lemma scanFrom_app (isGovcloud : bool) (st : ScanState) (l k : list string) :
  scanFrom isGovcloud st (l ++ k) = scanFrom isGovcloud (scanFrom isGovcloud st l) k.
Proof. apply fold_left_app. Qed.

(** The lines between a header and the footer pile up in the buffer. *)
Lemma scanFrom_body (isGovcloud : bool) (body : list string) (st : ScanState) :
  inPlanSection st = true ->
  Forall (fun l => isHeader l = false /\ isFooter l = false) body ->
  planLines (scanFrom isGovcloud st body) = planLines st ++ body /\
  inPlanSection (scanFrom isGovcloud st body) = true /\
  environments (scanFrom isGovcloud st body) = environments st /\
  emitted (scanFrom isGovcloud st body) = emitted st.
Proof.
  revert st; induction body as [|l body IH]; intros st Hin Hall.
  - simpl. by rewrite app_nil_r.
  - inversion Hall as [|? ? [Hh Hf] Hall']; subst.
    destruct (scanLine_inside isGovcloud st l Hin Hh Hf) as (Hp & Hi & He & Hm).
    destruct (IH (scanLine isGovcloud st l) Hi Hall') as (Hp' & Hi' & He' & Hm').
    change (scanFrom isGovcloud st (l :: body))
      with (scanFrom isGovcloud (scanLine isGovcloud st l) body).
    rewrite Hp', Hi', He', Hm', Hp, He, Hm. by rewrite <- app_assoc.
Qed.

(** What a footer line does inside a block. *)
Lemma scanLine_footer (isGovcloud : bool) (st : ScanState) (line : string) :
  inPlanSection st = true -> isHeader line = false -> isFooter line = true ->
  let st' := scanLine isGovcloud st line in
  let text := Join (planLines st ++ [line]) in
  planLines st' = [] /\ inPlanSection st' = false /\
  if nonEmpty (currentEnv st') && nonEmpty (currentRegion st')
  then emitted st' = emitted st ++ [mkRecord (currentEnv st') (currentRegion st') text] /\
       environments st' =
         storeBlock (currentEnv st') (currentRegion st') text (environments st)
  else emitted st' = emitted st /\ environments st' = environments st.
Proof.
  intros Hin Hh Hf st' text.
  destruct (scanLine_markers isGovcloud st line) as [He Hr].
  fold st' in He, Hr. rewrite He, Hr. subst st' text. clear He Hr.
  unfold scanLine, collect. rewrite Hh, Hf.
  destruct (updateMarkers_keeps isGovcloud line st) as (-> & -> & -> & ->).
  rewrite Hin.
  by destruct (nonEmpty (currentEnv (updateMarkers isGovcloud line st)) &&
               nonEmpty (currentRegion (updateMarkers isGovcloud line st))).
Qed.

(** C4, as the program has it.  For a line read while [inPlanSection] holds
    and that does not contain the header phrase: the block is closed exactly
    when the line contains "Plan:" and one of "to add", "to change",
    "to destroy".  On closing, the buffer is emptied and the flag reset; the
    record of the two markers and the joined buffer is stored and logged
    exactly when both markers are non-empty, and nothing is stored
    otherwise.  The markers keep the values they have once this line's own
    marker updates are done.  A line that does not close is appended. *)
Theorem footer_closes_block (isGovcloud : bool) (st : ScanState) (line : string) :
  inPlanSection st = true -> isHeader line = false ->
  let st1 := updateMarkers isGovcloud line st in
  let st' := scanLine isGovcloud st line in
  let text := Join (planLines st ++ [line]) in
  currentEnv st' = currentEnv st1 /\
  currentRegion st' = currentRegion st1 /\
  (inPlanSection st' = false <-> isFooter line = true) /\
  (isFooter line = true ->
     planLines st' = [] /\
     if nonEmpty (currentEnv st1) && nonEmpty (currentRegion st1)
     then emitted st' = emitted st ++ [mkRecord (currentEnv st1) (currentRegion st1) text] /\
          environments st' =
            storeBlock (currentEnv st1) (currentRegion st1) text (environments st)
     else emitted st' = emitted st /\ environments st' = environments st) /\
  (isFooter line = false ->
     planLines st' = planLines st ++ [line] /\
     emitted st' = emitted st /\ environments st' = environments st).
Proof.
  intros Hin Hh st1 st' text.
  destruct (scanLine_markers isGovcloud st line) as [He Hr].
  split; [exact He|]. split; [exact Hr|].
  subst st' text. unfold scanLine, collect. fold st1. rewrite Hh.
  destruct (updateMarkers_keeps isGovcloud line st) as (Hp & Hi & Hm & Hl).
  fold st1 in Hp, Hi, Hm, Hl. rewrite Hi, Hin, Hp, Hm, Hl.
  destruct (isFooter line) eqn:Hf.
  - destruct (nonEmpty (currentEnv st1) && nonEmpty (currentRegion st1)) eqn:Hne; simpl;
      (split; [done|]); (split; [|done]); intros _; by rewrite ?Hne.
  - simpl. split; [split; done|]. split; [done|]. by intros _.
Qed.

Lemma footer_closes_block_witness :
  let st1 := updateMarkers false Samples.footerLine Samples.insideBlock in
  let st' := scanLine false Samples.insideBlock Samples.footerLine in
  let text := Join (planLines Samples.insideBlock ++ [Samples.footerLine]) in
  currentEnv st' = currentEnv st1 /\
  currentRegion st' = currentRegion st1 /\
  (inPlanSection st' = false <-> isFooter Samples.footerLine = true) /\
  (isFooter Samples.footerLine = true ->
     planLines st' = [] /\
     if nonEmpty (currentEnv st1) && nonEmpty (currentRegion st1)
     then emitted st' =
            emitted Samples.insideBlock ++ [mkRecord (currentEnv st1) (currentRegion st1) text] /\
          environments st' =
            storeBlock (currentEnv st1) (currentRegion st1) text
              (environments Samples.insideBlock)
     else emitted st' = emitted Samples.insideBlock /\
          environments st' = environments Samples.insideBlock) /\
  (isFooter Samples.footerLine = false ->
     planLines st' = planLines Samples.insideBlock ++ [Samples.footerLine] /\
     emitted st' = emitted Samples.insideBlock /\
     environments st' = environments Samples.insideBlock).
Proof.
  apply (footer_closes_block false Samples.insideBlock Samples.footerLine);
    vm_compute; reflexivity.
Defined.

(** C4 as the specification words it fails on a line that holds the header
    phrase and a plan summary: read inside a block, it restarts the block
    instead of closing it. *)
Lemma footer_with_header_does_not_close :
  ~ Claimed.closedExactlyOnFooter false Samples.insideBlock Samples.headerFooterLine.
Proof.
  unfold Claimed.closedExactlyOnFooter. intros H.
  assert (Hin : inPlanSection Samples.insideBlock = true) by (vm_compute; reflexivity).
  destruct (H Hin) as [_ H2].
  assert (Hf : isFooter Samples.headerFooterLine = true) by (vm_compute; reflexivity).
  specialize (H2 Hf). vm_compute in H2. discriminate H2.
Qed.

(** C3, as the program has it.  A header line restarts the buffer with that
    line alone, also inside a block: what was accumulated before is dropped.
    After the header, the lines of the block and the closing line, the block
    is closed and the record that is stored, if the markers are non-empty,
    holds the text from this last header on and nothing older. *)
Theorem header_restarts_block (isGovcloud : bool) (st : ScanState)
  (header : string) (body : list string) (footer : string) :
  isHeader header = true ->
  Forall (fun l => isHeader l = false /\ isFooter l = false) body ->
  isHeader footer = false -> isFooter footer = true ->
  let st' := scanFrom isGovcloud st (header :: body ++ [footer]) in
  planLines (scanLine isGovcloud st header) = [header] /\
  inPlanSection st' = false /\ planLines st' = [] /\
  if nonEmpty (currentEnv st') && nonEmpty (currentRegion st')
  then emitted st' =
         emitted st ++ [mkRecord (currentEnv st') (currentRegion st')
                          (Join (header :: body ++ [footer]))]
  else emitted st' = emitted st.
Proof.
  intros Hh Hbody Hfh Hff st'.
  destruct (scanLine_header isGovcloud st header Hh) as (Hp & Hi & Hm & He).
  split; [exact Hp|].
  destruct (scanFrom_body isGovcloud body _ Hi Hbody) as (Hp' & Hi' & Hm' & He').
  assert (Hst : st' = scanLine isGovcloud
                        (scanFrom isGovcloud (scanLine isGovcloud st header) body) footer).
  { subst st'. change (header :: body ++ [footer]) with ([header] ++ body ++ [footer]).
    by rewrite !scanFrom_app. }
  pose proof (scanLine_footer isGovcloud _ footer Hi' Hfh Hff) as Hfoot.
  simpl in Hfoot. rewrite <- Hst in Hfoot.
  destruct Hfoot as (Hpl & Hin & Hrec).
  split; [exact Hin|]. split; [exact Hpl|].
  rewrite Hp', Hp, He', He in Hrec.
  destruct (nonEmpty (currentEnv st') && nonEmpty (currentRegion st')); by destruct Hrec.
Qed.

Lemma header_restarts_block_witness :
  let st' := scanFrom false Samples.insideBlock
               (Samples.headerLine :: ["  + second"] ++ [Samples.footerLine]) in
  planLines (scanLine false Samples.insideBlock Samples.headerLine) = [Samples.headerLine] /\
  inPlanSection st' = false /\ planLines st' = [] /\
  if nonEmpty (currentEnv st') && nonEmpty (currentRegion st')
  then emitted st' =
         emitted Samples.insideBlock ++
           [mkRecord (currentEnv st') (currentRegion st')
              (Join (Samples.headerLine :: ["  + second"] ++ [Samples.footerLine]))]
  else emitted st' = emitted Samples.insideBlock.
Proof.
  apply (header_restarts_block false Samples.insideBlock Samples.headerLine
           ["  + second"] Samples.footerLine);
    [vm_compute; reflexivity | repeat constructor | vm_compute; reflexivity
    | vm_compute; reflexivity].
Defined.

(** C3 as the specification words it fails on a second header inside a
    block: the first block's line is gone from the buffer. *)
Lemma second_header_drops_buffer :
  ~ Claimed.blockSpansHeaders false
      [Samples.markerLine; Samples.headerLine; "  + first"]
      Samples.headerLine ["  + second"] Samples.footerLine.
Proof.
  unfold Claimed.blockSpansHeaders. intros H.
  destruct H as [_ (env & reg & H)]; [vm_compute; reflexivity | vm_compute; reflexivity |].
  vm_compute in H. discriminate H.
Qed.

(** What is stored for that buffer: the second block alone. *)
Example second_header_block :
  emitted (scanFrom false initial
             [Samples.markerLine; Samples.headerLine; "  + first";
              Samples.headerLine; "  + second"; Samples.footerLine]) =
  [mkRecord "staging" "eu-west-1"
     (Join [Samples.headerLine; "  + second"; Samples.footerLine])].
Proof. vm_compute. reflexivity. Qed.

(** A block read before any marker is dropped without a record. *)
Example block_without_markers :
  emitted (scanFrom false initial [Samples.headerLine; "  + x"; Samples.footerLine]) = [] /\
  inPlanSection (scanFrom false initial [Samples.headerLine; "  + x"; Samples.footerLine])
  = false.
Proof. vm_compute. split; reflexivity. Qed.

End ScannerFacts.

(** ** Executor runs and the files they leave *)
Module ExecFacts.
Import GoStrings Scanner Report Exec StringFacts.

(** *** The loop of one targeted group, for a fixed host and output file *)
Section TargetedLoop.
Context (h : Host) (f : string).

Lemma planOutputs_app (l k : list string) :
  planOutputs h (l ++ k) = planOutputs h l +:+ planOutputs h k.
Proof. unfold planOutputs. by rewrite map_app, concat_app. Qed.

Lemma planOutputs_cons (p : string) (l : list string) :
  planOutputs h (p :: l) = ((Output h (planArgv p)).1 +:+ nl) +:+ planOutputs h l.
Proof. unfold planOutputs. by rewrite map_cons, concat_cons. Qed.

(** Two writes to the open file append both pieces to what it holds. *)
Lemma WriteString_twice (c a b : string) (w : World) :
  files w !! f = Some c ->
  WriteString f b (WriteString f a w) =
  mkWorld (<[f := (c +:+ a) +:+ b]> (files w)) (calls w).
Proof.
  intros Hf. unfold WriteString; simpl.
  rewrite Hf, lookup_insert_eq; simpl. by rewrite insert_insert_eq.
Qed.

(** The loop over a prefix of successful plans: their outputs are appended
    to the open file and their invocations logged, and the loop goes on. *)
Lemma planEach_app (l1 l2 : list string) (c : string) (w : World) :
  files w !! f = Some c ->
  Forall (succeeds h) l1 ->
  planEach h (l1 ++ l2) f w =
  planEach h l2 f
    (mkWorld (<[f := c +:+ planOutputs h l1]> (files w)) (calls w ++ map planArgv l1)).
Proof.
  revert c w; induction l1 as [|p l1 IH]; intros c w Hf Hall.
  - destruct w as [fs cs]; simpl in *. unfold planOutputs; simpl.
    by rewrite append_nil_r, insert_id, app_nil_r.
  - inversion Hall as [|? ? Hp Hall']; subst. unfold succeeds in Hp.
    rewrite <- app_comm_cons. simpl.
    destruct (Output h (planArgv p)) as [out err] eqn:Ho. simpl in Hp; subst err.
    rewrite (WriteString_twice c) by done.
    rewrite (IH ((c +:+ out) +:+ nl)); [|by simpl; rewrite lookup_insert_eq|done].
    simpl. rewrite insert_insert_eq, planOutputs_cons, Ho; simpl.
    by rewrite !append_assoc, <- app_assoc.
Qed.

(** The loop never touches a file other than its own. *)
Lemma planEach_frame (plans : list string) (g : string) (w : World) :
  g <> f -> files (planEach h plans f w).2 !! g = files w !! g.
Proof.
  intros Hg. revert w; induction plans as [|p plans IH]; intros w; [done|].
  simpl. destruct (Output h (planArgv p)) as [out [e|]]; [done|].
  rewrite IH. simpl. by rewrite !lookup_insert_ne.
Qed.

(** A loop that ends without error ran every plan successfully. *)
Lemma planEach_None (plans : list string) (w : World) :
  (planEach h plans f w).1 = None -> Forall (succeeds h) plans.
Proof.
  revert w; induction plans as [|p plans IH]; intros w H; [constructor|].
  simpl in H. destruct (Output h (planArgv p)) as [out [e|]] eqn:Ho; [done|].
  constructor; [unfold succeeds; by rewrite Ho | by eapply IH].
Qed.

Lemma runTargetedPlanGroup_ok (plans : list string) (w : World) :
  createErr h f = None -> Forall (succeeds h) plans ->
  runTargetedPlanGroup h plans f w =
  (None, mkWorld (<[f := planOutputs h plans]> (files w)) (calls w ++ map planArgv plans)).
Proof.
  intros Hc Hall. unfold runTargetedPlanGroup. rewrite Hc.
  rewrite <- (app_nil_r plans) at 1.
  rewrite (planEach_app plans [] ""); [|by simpl; rewrite lookup_insert_eq|done].
  simpl. by rewrite insert_insert_eq.
Qed.

Lemma runTargetedPlanGroup_frame (plans : list string) (g : string) (w : World) :
  g <> f -> files (runTargetedPlanGroup h plans f w).2 !! g = files w !! g.
Proof.
  intros Hg. unfold runTargetedPlanGroup. destruct (createErr h f); [done|].
  rewrite planEach_frame by done. simpl. by rewrite lookup_insert_ne.
Qed.

End TargetedLoop.

(** C8.  In a targeted group whose file could be created, when the plans
    before [planDir] succeed and the executor fails on [planDir] with error
    [e]: the group returns the failure that names [planDir] and [e]; the
    invocations started are those of the plans up to [planDir], none of a
    later plan; and the file holds the outputs of the plans before it. *)
Theorem targeted_group_fails_fast (h : Host) (before : list string) (planDir : string)
  (after : list string) (outputFile : string) (w : World) (e : string) :
  createErr h outputFile = None ->
  Forall (succeeds h) before ->
  (Output h (planArgv planDir)).2 = Some e ->
  runTargetedPlanGroup h (before ++ planDir :: after) outputFile w =
  (Some ("failed to run plan for " +:+ planDir +:+ ": " +:+ e),
   mkWorld (<[outputFile := planOutputs h before]> (files w))
           (calls w ++ map planArgv (before ++ [planDir]))).
Proof.
  intros Hc Hall He. unfold runTargetedPlanGroup. rewrite Hc.
  rewrite (planEach_app h outputFile before (planDir :: after) "");
    [|by simpl; rewrite lookup_insert_eq|done].
  simpl. destruct (Output h (planArgv planDir)) as [out err]. simpl in He; subst err.
  unfold started; simpl. by rewrite insert_insert_eq, map_app, app_assoc.
Qed.

Lemma targeted_group_fails_fast_witness :
  runTargetedPlanGroup Samples.oneBroken (["a"; "b"] ++ "broken" :: ["c"])
    "commercial-plans.txt" Samples.emptyWorld =
  (Some ("failed to run plan for " +:+ "broken" +:+ ": " +:+ "exit status 1"),
   mkWorld (<["commercial-plans.txt" := planOutputs Samples.oneBroken ["a"; "b"]]>
              (files Samples.emptyWorld))
           (calls Samples.emptyWorld ++ map planArgv (["a"; "b"] ++ ["broken"]))).
Proof.
  apply (targeted_group_fails_fast Samples.oneBroken ["a"; "b"] "broken" ["c"]
           "commercial-plans.txt" Samples.emptyWorld "exit status 1");
    [reflexivity | repeat constructor | reflexivity].
Defined.

(** C9, as the program has it.  In a targeted group whose file could be
    created and whose plans all succeed, the file holds the outputs in input
    order, each followed by one line feed, the last one too. *)
Theorem targeted_group_buffer (h : Host) (plans : list string) (outputFile : string)
  (w : World) :
  createErr h outputFile = None ->
  Forall (succeeds h) plans ->
  (runTargetedPlanGroup h plans outputFile w).1 = None /\
  files (runTargetedPlanGroup h plans outputFile w).2 !! outputFile =
    Some (String.concat "" (map (fun p => (Output h (planArgv p)).1 +:+ nl) plans)) /\
  calls (runTargetedPlanGroup h plans outputFile w).2 = calls w ++ map planArgv plans.
Proof.
  intros Hc Hall. rewrite runTargetedPlanGroup_ok by done. simpl.
  by rewrite lookup_insert_eq.
Qed.

Lemma targeted_group_buffer_witness :
  (runTargetedPlanGroup Samples.oneBroken ["a"; "b"] "commercial-plans.txt"
     Samples.emptyWorld).1 = None /\
  files (runTargetedPlanGroup Samples.oneBroken ["a"; "b"] "commercial-plans.txt"
           Samples.emptyWorld).2 !! "commercial-plans.txt" =
    Some (String.concat ""
            (map (fun p => (Output Samples.oneBroken (planArgv p)).1 +:+ nl) ["a"; "b"])) /\
  calls (runTargetedPlanGroup Samples.oneBroken ["a"; "b"] "commercial-plans.txt"
           Samples.emptyWorld).2 = calls Samples.emptyWorld ++ map planArgv ["a"; "b"].
Proof.
  apply (targeted_group_buffer Samples.oneBroken ["a"; "b"] "commercial-plans.txt"
           Samples.emptyWorld); [reflexivity | repeat constructor].
Defined.

(** C9 as the specification words it fails already for one plan: whatever
    the separator, a separator between outputs only leaves the single output
    as it is, while the file ends with one more line feed. *)
Lemma line_feed_after_last_output :
  ~ exists sep : string,
      files (runTargetedPlanGroup Samples.oneBroken ["a"] "commercial-plans.txt"
               Samples.emptyWorld).2 !! "commercial-plans.txt"
      = Some (Claimed.separatedOutputs sep Samples.oneBroken ["a"]).
Proof. intros [sep H]. vm_compute in H. discriminate H. Qed.

(** *** The two groups and what the run makes of their outcomes *)

Lemma WriteFile_frame (h : Host) (name data g : string) (w : World) :
  g <> name -> files (WriteFile h name data w).2 !! g = files w !! g.
Proof.
  intros Hg. unfold WriteFile. destruct (createErr h name); [done|].
  simpl. by rewrite lookup_insert_ne.
Qed.

Lemma runCommand_frame (h : Host) (command : string) (args : list string)
  (f g : string) (w : World) :
  g <> f -> files (runCommand h command args f w).2 !! g = files w !! g.
Proof.
  intros Hg. unfold runCommand. destruct (Output h (command :: args)) as [out [e|]]; [done|].
  by rewrite WriteFile_frame.
Qed.

(** A batch run that reports no error has written the captured output. *)
Lemma runCommand_ok (h : Host) (command : string) (args : list string)
  (f : string) (w : World) :
  (runCommand h command args f w).1 = None ->
  files (runCommand h command args f w).2 !! f = Some (Output h (command :: args)).1.
Proof.
  unfold runCommand. destruct (Output h (command :: args)) as [out [e|]]; [done|].
  unfold WriteFile. destruct (createErr h f); [done|].
  intros _. simpl. by rewrite lookup_insert_eq.
Qed.

Lemma targetedGroup_frame (h : Host) (plans : list string) (f placeholder g : string)
  (w : World) :
  g <> f -> files (targetedGroup h plans f placeholder w).2 !! g = files w !! g.
Proof.
  intros Hg. destruct plans as [|p plans]; simpl.
  - by apply WriteFile_frame.
  - by apply runTargetedPlanGroup_frame.
Qed.

(** A targeted group with plans that reports no error has written the
    outputs of all its plans. *)
Lemma targetedGroup_ok (h : Host) (plans : list string) (f placeholder : string)
  (w : World) :
  plans <> [] ->
  (targetedGroup h plans f placeholder w).1 = None ->
  files (targetedGroup h plans f placeholder w).2 !! f = Some (planOutputs h plans).
Proof.
  intros Hne. destruct plans as [|p plans]; [done|].
  unfold targetedGroup, runTargetedPlanGroup.
  destruct (createErr h f) eqn:Hc; [done|]. intros Hnone.
  apply planEach_None in Hnone.
  pose proof (runTargetedPlanGroup_ok h f (p :: plans) w Hc Hnone) as Hok.
  unfold runTargetedPlanGroup in Hok. rewrite Hc in Hok. rewrite Hok. simpl.
  by rewrite lookup_insert_eq.
Qed.

Lemma targetedGroup_empty (h : Host) (f placeholder : string) (w : World) :
  createErr h f = None ->
  files (targetedGroup h [] f placeholder w).2 !! f = Some placeholder.
Proof.
  intros Hc. unfold targetedGroup, WriteFile. rewrite Hc. simpl.
  by rewrite lookup_insert_eq.
Qed.

Lemma runPlans_groups (h : Host) (pg : PlanGenerator) (targeted : bool) (w : World) :
  runPlans h pg targeted w =
  (firstFailure (planGroups h pg targeted w).1.1 (planGroups h pg targeted w).1.2,
   (planGroups h pg targeted w).2).
Proof.
  unfold runPlans, planGroups, runTargetedPlans, runPlanAll.
  destruct (targetedPlans h targeted) as [plans|].
  - by destruct (targetedGroups h plans w) as [[c g] w1].
  - by destruct (planAllGroups h pg w) as [[c g] w1].
Qed.

Lemma firstFailure_one (c g : option string) :
  exactlyOneFailed c g -> exists e, firstFailure c g = Some e.
Proof.
  intros [[-> Hg]|[Hc ->]]; simpl.
  - destruct g as [e|]; [eauto | done].
  - destruct c as [e|]; [eauto | done].
Qed.

(** Unfolding of the two groups of a batch run. *)
Lemma planAllGroups_eq (h : Host) (pg : PlanGenerator) (w : World) :
  let r1 := runCommand h "kitman" (commercialArgs pg) "commercial-plans.txt" w in
  let r2 := runCommand h "kitman" (govcloudArgs pg) "govcloud-plans.txt" r1.2 in
  planAllGroups h pg w = (r1.1, r2.1, r2.2).
Proof.
  unfold planAllGroups.
  destruct (runCommand h "kitman" (commercialArgs pg) "commercial-plans.txt" w) as [c w1].
  simpl. by destruct (runCommand h "kitman" (govcloudArgs pg) "govcloud-plans.txt" w1).
Qed.

(** Unfolding of the two groups of a targeted run. *)
Lemma targetedGroups_eq (h : Host) (plans : list string) (w : World) :
  let r1 := targetedGroup h (partitionPlans plans).1 "commercial-plans.txt"
              ("No commercial plans needed" +:+ nl) w in
  let r2 := targetedGroup h (partitionPlans plans).2 "govcloud-plans.txt"
              ("No GovCloud plans needed" +:+ nl) r1.2 in
  targetedGroups h plans w = (r1.1, r2.1, r2.2).
Proof.
  unfold targetedGroups. destruct (partitionPlans plans) as [cp gp]. simpl.
  destruct (targetedGroup h cp "commercial-plans.txt" _ w) as [c w1]. simpl.
  by destruct (targetedGroup h gp "govcloud-plans.txt" _ w1).
Qed.

(** The plan step leaves the report file alone. *)
Lemma planGroups_report_untouched (h : Host) (pg : PlanGenerator) (targeted : bool)
  (w : World) :
  files (planGroups h pg targeted w).2 !! "pr-ready.md" = files w !! "pr-ready.md".
Proof.
  unfold planGroups. destruct (targetedPlans h targeted) as [plans|].
  - rewrite targetedGroups_eq. simpl. by rewrite !targetedGroup_frame.
  - rewrite planAllGroups_eq. simpl. by rewrite !runCommand_frame.
Qed.

(** C1, as the program has it.  When the module and the output directory
    are in order and exactly one of the two groups fails, the run exits with
    status 1 right after the plan step: report generation does not run and
    the report file is as it was before the run.  The file of the group that
    succeeded is in place: the captured output in a batch run; in a targeted
    run the outputs of its plans, or the placeholder when it had none and
    the placeholder could be written. *)
Theorem one_failure_stops_before_report (h : Host) (pg : PlanGenerator)
  (targeted : bool) (w : World) :
  validateModule h pg = None -> mkdirErr h = None ->
  exactlyOneFailed (planGroups h pg targeted w).1.1 (planGroups h pg targeted w).1.2 ->
  let commercialErr := (planGroups h pg targeted w).1.1 in
  let govcloudErr := (planGroups h pg targeted w).1.2 in
  let w1 := (planGroups h pg targeted w).2 in
  runPlanGenerator h pg targeted w = (1, w1) /\
  files w1 !! "pr-ready.md" = files w !! "pr-ready.md" /\
  match targetedPlans h targeted with
  | None =>
      (commercialErr = None ->
       files w1 !! "commercial-plans.txt" = Some (Output h ("kitman" :: commercialArgs pg)).1) /\
      (govcloudErr = None ->
       files w1 !! "govcloud-plans.txt" = Some (Output h ("kitman" :: govcloudArgs pg)).1)
  | Some plans =>
      (commercialErr = None -> (partitionPlans plans).1 <> [] ->
       files w1 !! "commercial-plans.txt" = Some (planOutputs h (partitionPlans plans).1)) /\
      (govcloudErr = None -> (partitionPlans plans).2 <> [] ->
       files w1 !! "govcloud-plans.txt" = Some (planOutputs h (partitionPlans plans).2)) /\
      ((partitionPlans plans).1 = [] -> createErr h "commercial-plans.txt" = None ->
       files w1 !! "commercial-plans.txt" = Some ("No commercial plans needed" +:+ nl)) /\
      ((partitionPlans plans).2 = [] -> createErr h "govcloud-plans.txt" = None ->
       files w1 !! "govcloud-plans.txt" = Some ("No GovCloud plans needed" +:+ nl))
  end.
Proof.
  intros Hv Hm Hone commercialErr govcloudErr w1.
  split; [|split].
  - unfold runPlanGenerator. rewrite Hv, Hm, runPlans_groups.
    by destruct (firstFailure_one _ _ Hone) as [e ->].
  - apply planGroups_report_untouched.
  - subst commercialErr govcloudErr w1. clear Hone. unfold planGroups.
    destruct (targetedPlans h targeted) as [plans|].
    + rewrite targetedGroups_eq. simpl. repeat split.
      * intros Hc Hne. rewrite targetedGroup_frame by done. by apply targetedGroup_ok.
      * intros Hg Hne. by apply targetedGroup_ok.
      * intros -> Hc. rewrite targetedGroup_frame by done. by apply targetedGroup_empty.
      * intros -> Hc. by apply targetedGroup_empty.
    + rewrite planAllGroups_eq. simpl. split.
      * intros Hc. rewrite runCommand_frame by done. by apply runCommand_ok.
      * intros Hg. by apply runCommand_ok.
Qed.

Lemma one_failure_stops_before_report_witness :
  let commercialErr := (planGroups Samples.commercialDown Samples.pg false Samples.emptyWorld).1.1 in
  let govcloudErr := (planGroups Samples.commercialDown Samples.pg false Samples.emptyWorld).1.2 in
  let w1 := (planGroups Samples.commercialDown Samples.pg false Samples.emptyWorld).2 in
  runPlanGenerator Samples.commercialDown Samples.pg false Samples.emptyWorld = (1, w1) /\
  files w1 !! "pr-ready.md" = files Samples.emptyWorld !! "pr-ready.md" /\
  match targetedPlans Samples.commercialDown false with
  | None =>
      (commercialErr = None ->
       files w1 !! "commercial-plans.txt" =
         Some (Output Samples.commercialDown ("kitman" :: commercialArgs Samples.pg)).1) /\
      (govcloudErr = None ->
       files w1 !! "govcloud-plans.txt" =
         Some (Output Samples.commercialDown ("kitman" :: govcloudArgs Samples.pg)).1)
  | Some plans =>
      (commercialErr = None -> (partitionPlans plans).1 <> [] ->
       files w1 !! "commercial-plans.txt" =
         Some (planOutputs Samples.commercialDown (partitionPlans plans).1)) /\
      (govcloudErr = None -> (partitionPlans plans).2 <> [] ->
       files w1 !! "govcloud-plans.txt" =
         Some (planOutputs Samples.commercialDown (partitionPlans plans).2)) /\
      ((partitionPlans plans).1 = [] ->
       createErr Samples.commercialDown "commercial-plans.txt" = None ->
       files w1 !! "commercial-plans.txt" = Some ("No commercial plans needed" +:+ nl)) /\
      ((partitionPlans plans).2 = [] ->
       createErr Samples.commercialDown "govcloud-plans.txt" = None ->
       files w1 !! "govcloud-plans.txt" = Some ("No GovCloud plans needed" +:+ nl))
  end.
Proof.
  apply (one_failure_stops_before_report Samples.commercialDown Samples.pg false
           Samples.emptyWorld); [reflexivity | reflexivity |].
  right. split; [vm_compute; discriminate | vm_compute; reflexivity].
Defined.

(** C1 as the specification words it fails when the commercial batch run
    exits with status 1 and the govcloud run succeeds: the run ends without
    the report that report generation would have written. *)
Lemma failed_group_leaves_no_report :
  ~ Claimed.reportStillGenerated Samples.commercialDown Samples.pg false Samples.emptyWorld.
Proof.
  unfold Claimed.reportStillGenerated. intros H.
  destruct (H _ _ _ eq_refl) as [_ Hw].
  - right. split; [vm_compute; discriminate | vm_compute; reflexivity].
  - apply (f_equal (fun w => files w !! "pr-ready.md")) in Hw.
    vm_compute in Hw. discriminate Hw.
Qed.

(** C2, as the program has it.  When both groups fail, with causes [c1]
    (commercial) and [c2] (govcloud), the error of [runPlanAll] and of
    [runTargetedPlans] is "commercial plans failed: " followed by [c1]; it
    is built from [c1] alone. *)
Theorem both_fail_reports_commercial (h : Host) (pg : PlanGenerator)
  (affectedPlans : list string) (w w1 : World) (c1 c2 : string) :
  (planAllGroups h pg w = (Some c1, Some c2, w1) ->
   runPlanAll h pg w = (Some ("commercial plans failed: " +:+ c1), w1)) /\
  (targetedGroups h affectedPlans w = (Some c1, Some c2, w1) ->
   runTargetedPlans h affectedPlans w = (Some ("commercial plans failed: " +:+ c1), w1)).
Proof.
  split; intros H.
  - unfold runPlanAll. by rewrite H.
  - unfold runTargetedPlans. by rewrite H.
Qed.

Lemma both_fail_reports_commercial_witness :
  runPlanAll Samples.bothDown Samples.pg Samples.emptyWorld =
    (Some ("commercial plans failed: " +:+
           "command failed: kitman [tg plan_all -m s3_malware_protection --local --pr] - exit status 1"),
     (planAllGroups Samples.bothDown Samples.pg Samples.emptyWorld).2) /\
  runTargetedPlans Samples.bothDown ["a"; "govcloud-b"] Samples.emptyWorld =
    (Some ("commercial plans failed: " +:+ "failed to run plan for a: exit status 1"),
     (targetedGroups Samples.bothDown ["a"; "govcloud-b"] Samples.emptyWorld).2).
Proof.
  split.
  - apply (proj1 (both_fail_reports_commercial Samples.bothDown Samples.pg []
                    Samples.emptyWorld _ _
                    "command failed: kitman [tg plan_all -m s3_malware_protection --organizations govcloud-staging|govcloud-production --regions us-gov-west-1 --local --pr] - exit status 2")).
    vm_compute. reflexivity.
  - apply (proj2 (both_fail_reports_commercial Samples.bothDown Samples.pg
                    ["a"; "govcloud-b"] Samples.emptyWorld _ _
                    "failed to run plan for govcloud-b: exit status 1")).
    vm_compute. reflexivity.
Defined.

(** C2 as the specification words it fails when the commercial batch run
    exits with status 1 and the govcloud run with status 2: the error of
    [runPlanAll] does not contain the govcloud cause. *)
Lemma govcloud_cause_not_reported :
  ~ Claimed.reportsBothCauses
      (planAllGroups Samples.bothDown Samples.pg Samples.emptyWorld).1.1
      (planAllGroups Samples.bothDown Samples.pg Samples.emptyWorld).1.2
      (runPlanAll Samples.bothDown Samples.pg Samples.emptyWorld).1.
Proof.
  unfold Claimed.reportsBothCauses. intros H.
  destruct (H _ _ eq_refl eq_refl) as (e & He & _ & H2).
  vm_compute in He. injection He as <-. vm_compute in H2. discriminate H2.
Qed.

(** C10.  A group file whose content contains "No commercial plans needed"
    or "No GovCloud plans needed" anywhere is skipped whole, whichever group
    is processed: [processPlansFile] returns no error, scans nothing and
    leaves every file, the report included, as it was. *)
Theorem placeholder_anywhere_skips_file (h : Host) (pg : PlanGenerator)
  (filename output : string) (isGovcloud : bool) (w : World) (contentStr : string) :
  files w !! filename = Some contentStr ->
  Contains contentStr "No commercial plans needed" = true \/
  Contains contentStr "No GovCloud plans needed" = true ->
  processPlansFile h pg filename output isGovcloud w = (None, w).
Proof.
  intros Hf Hs. unfold processPlansFile. rewrite Hf.
  destruct (String.eqb contentStr ""); [done|].
  by destruct Hs as [-> | ->]; rewrite ?orb_true_r.
Qed.

Lemma placeholder_anywhere_skips_file_witness :
  processPlansFile Samples.commercialDown Samples.pg "commercial-plans.txt" "pr-ready.md"
    false Samples.quotedPlaceholder = (None, Samples.quotedPlaceholder).
Proof.
  apply (placeholder_anywhere_skips_file Samples.commercialDown Samples.pg
           "commercial-plans.txt" "pr-ready.md" false Samples.quotedPlaceholder
           (Samples.planText +:+ "  # No GovCloud plans needed for this bucket" +:+ nl));
    [reflexivity | right; vm_compute; reflexivity].
Defined.

End ExecFacts.

(** ** The order of [sort.Strings] *)
Module SortFacts.
Import Report.

Lemma leb_trans (a b c : string) :
  String.leb a b = true -> String.leb b c = true -> String.leb a c = true.
Proof.
  unfold String.leb. revert b c.
  induction a as [|x a IH]; intros [|y b] [|z c]; simpl; try done.
  unfold Ascii.compare.
  destruct (N.compare_spec (N_of_ascii x) (N_of_ascii y)) as [Hxy|Hxy|Hxy],
           (N.compare_spec (N_of_ascii y) (N_of_ascii z)) as [Hyz|Hyz|Hyz],
           (N.compare_spec (N_of_ascii x) (N_of_ascii z)) as [Hxz|Hxz|Hxz];
    try done; try lia.
  apply IH.
Qed.

#[global] Instance string_le_trans : Transitive string_le.
Proof. intros a b c. apply leb_trans. Qed.

#[global] Instance string_le_antisym : AntiSymm (=) string_le.
Proof. intros a b. apply String.leb_antisym. Qed.

#[global] Instance string_le_total : Total string_le.
Proof. intros a b. apply String.leb_total. Qed.

Lemma sortStrings_perm (l : list string) : sortStrings l ≡ₚ l.
Proof. apply merge_sort_Permutation. Qed.

Lemma sortStrings_sorted (l : list string) : StronglySorted string_le (sortStrings l).
Proof. apply StronglySorted_merge_sort; apply _. Qed.

(** The sorted list does not depend on the order of its input. *)
Lemma sortStrings_unique (l k : list string) : l ≡ₚ k -> sortStrings l = sortStrings k.
Proof.
  intros H. apply (StronglySorted_unique string_le); try apply sortStrings_sorted.
  by rewrite !sortStrings_perm.
Qed.

Lemma sortStrings_elem (l : list string) (x : string) : x ∈ sortStrings l <-> x ∈ l.
Proof. by rewrite sortStrings_perm. Qed.

Lemma sortStrings_NoDup (l : list string) : NoDup l -> NoDup (sortStrings l).
Proof. by rewrite sortStrings_perm. Qed.

End SortFacts.

(** ** The grouping and its rendering *)
Module ReportFacts.
Import GoStrings Scanner Report Exec StringFacts SortFacts ScannerFacts.

Lemma contains_elem (l : list string) (x : string) : contains l x = true <-> x ∈ l.
Proof.
  induction l as [|y l IH]; simpl.
  - split; [done | by intros ?%elem_of_nil].
  - rewrite elem_of_cons. destruct (String.eqb_spec y x) as [->|Hne].
    + by intuition.
    + rewrite IH. intuition congruence.
Qed.

Lemma assemble_snoc (recs : list ActionRecord) (x : ActionRecord) :
  assemble (recs ++ [x]) =
  storeBlock (environment x) (region x) (blockText x) (assemble recs).
Proof. unfold assemble. by rewrite fold_left_app. Qed.

Lemma lastBlock_app (l k : list ActionRecord) (env reg : string) :
  lastBlock (l ++ k) env reg =
  match lastBlock k env reg with
  | Some text => Some text
  | None => lastBlock l env reg
  end.
Proof.
  induction l as [|x l IH]; simpl.
  - by destruct (lastBlock k env reg).
  - rewrite IH. by destruct (lastBlock k env reg).
Qed.

Lemma lastBlock_none (l : list ActionRecord) (env reg : string) :
  Forall (fun x => ~ (environment x = env /\ region x = reg)) l ->
  lastBlock l env reg = None.
Proof.
  induction 1 as [|x l Hx _ IH]; simpl; [done|]. rewrite IH.
  destruct (String.eqb_spec (environment x) env), (String.eqb_spec (region x) reg);
    simpl; try done. by destruct Hx.
Qed.

Lemma lastBlock_one (x : ActionRecord) (env reg : string) :
  lastBlock [x] env reg =
  if String.eqb (environment x) env && String.eqb (region x) reg
  then Some (blockText x) else None.
Proof. done. Qed.

Lemma assemble_groups (recs : list ActionRecord) (e : string) :
  groups recs e (assemble recs !! e).
Proof.
  induction recs as [|x recs IH] using rev_ind.
  - unfold assemble; simpl. rewrite lookup_empty. simpl. by intros x ?%elem_of_nil.
  - rewrite assemble_snoc. unfold storeBlock.
    destruct (decide (environment x = e)) as [He|He].
    + subst e. rewrite lookup_insert_eq. simpl.
      destruct (assemble recs !! environment x) as [env|] eqn:Hl; simpl in *.
      * destruct IH as (Hn & Hnd & Hr & Hp & _). repeat split.
        -- done.
        -- destruct (contains (Regions env) (region x)) eqn:Hc; [done|].
           apply NoDup_app. repeat split; [done| |apply NoDup_singleton].
           intros r Hin ->%list_elem_of_singleton.
           apply contains_elem in Hin. congruence.
        -- intros Hin.
           assert (Hcase : r ∈ Regions env \/ r = region x).
           { destruct (contains (Regions env) (region x)); [by left|].
             apply elem_of_app in Hin as [?|?%list_elem_of_singleton]; auto. }
           destruct Hcase as [Hin'| ->].
           ++ apply Hr in Hin' as (y & Hy & ? & ?). exists y.
              rewrite elem_of_app. auto.
           ++ exists x. rewrite elem_of_app, list_elem_of_singleton. auto.
        -- intros (y & [Hy| ->%list_elem_of_singleton]%elem_of_app & Hye & Hyr).
           ++ assert (r ∈ Regions env) by (apply Hr; eauto).
              destruct (contains (Regions env) (region x)); [done|].
              apply elem_of_app; auto.
           ++ subst r. destruct (contains (Regions env) (region x)) eqn:Hc.
              ** by apply contains_elem.
              ** apply elem_of_app. right. by apply list_elem_of_singleton.
        -- intros r. rewrite lastBlock_app, lastBlock_one, String.eqb_refl. simpl.
           destruct (String.eqb_spec (region x) r) as [->|Hne].
           ++ by rewrite lookup_insert_eq.
           ++ rewrite lookup_insert_ne by done. apply Hp.
        -- exists x. rewrite elem_of_app, list_elem_of_singleton. auto.
      * repeat split.
        -- apply NoDup_singleton.
        -- intros ->%list_elem_of_singleton. exists x.
           rewrite elem_of_app, list_elem_of_singleton. auto.
        -- intros (y & [Hy| ->%list_elem_of_singleton]%elem_of_app & Hye & Hyr).
           ++ by destruct (IH y Hy).
           ++ by apply list_elem_of_singleton.
        -- intros r. rewrite lastBlock_app, lastBlock_one, String.eqb_refl. simpl.
           destruct (String.eqb_spec (region x) r) as [->|Hne].
           ++ by rewrite lookup_insert_eq.
           ++ rewrite lookup_insert_ne, lookup_empty by done.
              symmetry. apply lastBlock_none, Forall_forall.
              intros y Hy [Hye _]. by destruct (IH y Hy).
        -- exists x. rewrite elem_of_app, list_elem_of_singleton. auto.
    + rewrite lookup_insert_ne by done.
      destruct (assemble recs !! e) as [env|]; simpl in *.
      * destruct IH as (Hn & Hnd & Hr & Hp & (z & Hz & Hze)). repeat split; try done.
        -- intros Hin. apply Hr in Hin as (y & Hy & ? & ?). exists y.
           rewrite elem_of_app. auto.
        -- intros (y & [Hy| ->%list_elem_of_singleton]%elem_of_app & Hye & Hyr);
             [apply Hr; eauto | done].
        -- intros r. rewrite lastBlock_app, lastBlock_one.
           destruct (String.eqb_spec (environment x) e); [done|]. simpl. apply Hp.
        -- exists z. rewrite elem_of_app. auto.
      * intros y [Hy| ->%list_elem_of_singleton]%elem_of_app; [by apply IH | done].
Qed.

Lemma lastBlock_Some (recs : list ActionRecord) (e r : string) :
  is_Some (lastBlock recs e r) <->
  exists x, x ∈ recs /\ environment x = e /\ region x = r.
Proof.
  induction recs as [|x recs IH]; simpl.
  - split; [by intros [? ?] | by intros (? & ?%elem_of_nil & _)].
  - destruct (lastBlock recs e r) as [t|].
    + split; [|eauto]. intros _.
      destruct (proj1 IH) as (y & ? & ? & ?); [eauto|]. exists y. rewrite elem_of_cons. auto.
    + destruct (String.eqb_spec (environment x) e) as [He|He],
               (String.eqb_spec (region x) r) as [Hr|Hr]; simpl.
      * split; [|eauto]. intros _. exists x. rewrite elem_of_cons. auto.
      * split; [by intros [? ?]|].
        intros (y & [->|Hy]%elem_of_cons & ? & ?); [congruence|].
        apply IH. eauto.
      * split; [by intros [? ?]|].
        intros (y & [->|Hy]%elem_of_cons & ? & ?); [congruence|].
        apply IH. eauto.
      * split; [by intros [? ?]|].
        intros (y & [->|Hy]%elem_of_cons & ? & ?); [congruence|].
        apply IH. eauto.
Qed.

(** Record sequences that leave the same last block for every pair build
    the same grouping, up to the first-seen order of the regions. *)
Lemma assemble_same (recs recs' : list ActionRecord) :
  (forall e r, lastBlock recs e r = lastBlock recs' e r) ->
  sameGrouping (assemble recs) (assemble recs').
Proof.
  intros Hlast k.
  pose proof (assemble_groups recs k) as H1.
  pose proof (assemble_groups recs' k) as H2.
  assert (Hex : forall r, (exists x, x ∈ recs /\ environment x = k /\ region x = r) <->
                          (exists x, x ∈ recs' /\ environment x = k /\ region x = r)).
  { intros r. by rewrite <- !lastBlock_Some, Hlast. }
  destruct (assemble recs !! k) as [e1|], (assemble recs' !! k) as [e2|]; simpl in *.
  - constructor. destruct H1 as (Hn1 & Hd1 & Hr1 & Hp1 & _), H2 as (Hn2 & Hd2 & Hr2 & Hp2 & _).
    repeat split.
    + congruence.
    + apply map_eq. intros r. by rewrite Hp1, Hp2.
    + apply NoDup_Permutation; [done..|]. intros r. by rewrite Hr1, Hr2.
  - destruct H1 as (_ & _ & _ & _ & (x & Hx & Hxe)).
    destruct (proj1 (Hex (region x))) as (y & Hy & Hye & _); [eauto|].
    by destruct (H2 y Hy).
  - destruct H2 as (_ & _ & _ & _ & (x & Hx & Hxe)).
    destruct (proj2 (Hex (region x))) as (y & Hy & Hye & _); [eauto|].
    by destruct (H1 y Hy).
  - constructor.
Qed.

Lemma keysOf_elem (m : gmap string Environment) (k : string) :
  k ∈ keysOf m <-> is_Some (m !! k).
Proof.
  unfold keysOf. rewrite list_elem_of_fmap. split.
  - intros ([k' e] & -> & H%elem_of_map_to_list). eauto.
  - intros [e H]. exists (k, e). split; [done|]. by apply elem_of_map_to_list.
Qed.

Lemma keysOf_NoDup (m : gmap string Environment) : NoDup (keysOf m).
Proof. apply NoDup_fst_map_to_list. Qed.

Lemma sameGrouping_keys (m1 m2 : gmap string Environment) :
  sameGrouping m1 m2 -> keysOf m1 ≡ₚ keysOf m2.
Proof.
  intros H. apply NoDup_Permutation; try apply keysOf_NoDup.
  intros k. rewrite !keysOf_elem. specialize (H k).
  inversion H; split; intros [? ?]; try done; eauto.
Qed.

Lemma sameGrouping_refl (m : gmap string Environment) : sameGrouping m m.
Proof. intros k. destruct (m !! k); by constructor. Qed.

Lemma renderEnvironment_same (moduleName : string) (e1 e2 : Environment) :
  sameEnvironment e1 e2 ->
  renderEnvironment moduleName e1 = renderEnvironment moduleName e2.
Proof.
  intros (Hn & Hp & Hr). unfold renderEnvironment, envHeader, renderRegions.
  rewrite Hn, (sortStrings_unique _ _ Hr). do 2 f_equal.
  apply map_ext. intros r. unfold renderRegion. by rewrite Hp.
Qed.

(** The report depends on the grouping only up to the order of the names
    and of the regions in it. *)
Lemma render_same (moduleName : string) (m1 m2 : gmap string Environment)
  (order1 order2 : list string) :
  sameGrouping m1 m2 -> order1 ≡ₚ keysOf m1 -> order2 ≡ₚ keysOf m2 ->
  render moduleName m1 order1 = render moduleName m2 order2.
Proof.
  intros Hm H1 H2. unfold render, renderSorted.
  assert (Hs : sortStrings order1 = sortStrings order2).
  { apply sortStrings_unique. by rewrite H1, H2, (sameGrouping_keys _ _ Hm). }
  rewrite Hs. f_equal. apply map_ext. intros n. specialize (Hm n).
  inversion Hm; [|done]. by apply renderEnvironment_same.
Qed.

(** The map of the scanner is the grouping of the records it logged. *)
Lemma collect_assemble (line : string) (st : ScanState) :
  environments st = assemble (emitted st) ->
  environments (collect line st) = assemble (emitted (collect line st)).
Proof.
  intros H. unfold collect.
  destruct (isHeader line); [done|].
  destruct (inPlanSection st); [|done].
  destruct (isFooter line); [|done].
  destruct (nonEmpty (currentEnv st) && nonEmpty (currentRegion st)); [|done].
  simpl. rewrite assemble_snoc. simpl. congruence.
Qed.

Lemma scanLine_assemble (isGovcloud : bool) (st : ScanState) (line : string) :
  environments st = assemble (emitted st) ->
  environments (scanLine isGovcloud st line) = assemble (emitted (scanLine isGovcloud st line)).
Proof. intros H. by apply collect_assemble. Qed.

Lemma scan_assemble (isGovcloud : bool) (contentStr : string) :
  environments (scan isGovcloud contentStr) = assemble (emitted (scan isGovcloud contentStr)).
Proof.
  unfold scan, scanFrom.
  assert (H0 : environments initial = assemble (emitted initial)) by done.
  revert H0. generalize initial.
  induction (Split contentStr) as [|l ls IH]; intros st H; simpl; [done|].
  apply IH. by apply scanLine_assemble.
Qed.

Lemma validRange_keysOf (h : Host) : rangeOrder h = keysOf -> validRange h.
Proof. intros H m. by rewrite H. Qed.

Lemma validRange_reverse (h : Host) :
  rangeOrder h = (fun m => reverse (keysOf m)) -> validRange h.
Proof. intros H m. rewrite H. apply reverse_Permutation. Qed.

(** The text written for a content does not depend on the order in which
    the runtime delivers the names. *)
Lemma planReport_range (h1 h2 : Host) (pg : PlanGenerator) (isGovcloud : bool)
  (contentStr : string) :
  validRange h1 -> validRange h2 ->
  planReport h1 pg isGovcloud contentStr = planReport h2 pg isGovcloud contentStr.
Proof.
  intros H1 H2. unfold planReport.
  apply render_same; [apply sameGrouping_refl | apply H1 | apply H2].
Qed.

Lemma planReport_records (h : Host) (pg : PlanGenerator) (isGovcloud : bool)
  (contentStr : string) :
  planReport h pg isGovcloud contentStr =
  reportOf (rangeOrder h) (ModuleName pg) (emitted (scan isGovcloud contentStr)).
Proof. unfold planReport, reportOf. by rewrite scan_assemble. Qed.

(** An earlier record is shadowed by a later one of the same pair. *)
Lemma lastBlock_shadowed (recs1 : list ActionRecord) (r1 : ActionRecord)
  (tail : list ActionRecord) (r2 : ActionRecord) (e r : string) :
  environment r1 = environment r2 -> region r1 = region r2 -> r2 ∈ tail ->
  lastBlock (recs1 ++ r1 :: tail) e r = lastBlock (recs1 ++ tail) e r.
Proof.
  intros He Hr Hin. rewrite !lastBlock_app. simpl.
  destruct (lastBlock tail e r) as [t|] eqn:Ht; [done|].
  destruct (String.eqb_spec (environment r1) e) as [He1|He1],
           (String.eqb_spec (region r1) r) as [Hr1|Hr1]; simpl; try done.
  assert (Hs : is_Some (lastBlock tail e r)).
  { apply lastBlock_Some. exists r2. split; [done|]. split; congruence. }
  rewrite Ht in Hs. by destruct Hs.
Qed.

(** C6.  Of two records with the same environment and region, the later
    one not followed by another record of this pair: the grouping holds the
    later block under the pair; the report is the one of the sequence
    without the earlier record; and the report contains the later block,
    fenced under its region, when that block is not empty.  The map that the
    scanner builds is the grouping of the records it stored, so this holds
    of the report written for any content with these records. *)
Theorem last_write_wins (h : Host) (moduleName : string)
  (recs1 : list ActionRecord) (r1 : ActionRecord) (recs2 : list ActionRecord)
  (r2 : ActionRecord) (recs3 : list ActionRecord) :
  validRange h ->
  environment r1 = environment r2 -> region r1 = region r2 ->
  Forall (fun x => ~ (environment x = environment r2 /\ region x = region r2)) recs3 ->
  let recs := recs1 ++ r1 :: recs2 ++ r2 :: recs3 in
  let later := recs1 ++ recs2 ++ r2 :: recs3 in
  (exists env, assemble recs !! environment r2 = Some env /\
               Plans env !! region r2 = Some (blockText r2)) /\
  reportOf (rangeOrder h) moduleName recs = reportOf (rangeOrder h) moduleName later /\
  (blockText r2 <> "" ->
   exists pre post,
     reportOf (rangeOrder h) moduleName recs =
     pre +:+ (blockOpen (region r2) +:+ blockText r2 +:+ blockClose) +:+ post) /\
  (forall pg isGovcloud contentStr,
     emitted (scan isGovcloud contentStr) = recs ->
     environments (scan isGovcloud contentStr) = assemble recs /\
     planReport h pg isGovcloud contentStr = reportOf (rangeOrder h) (ModuleName pg) later).
Proof.
  intros Hv He Hr Hnone recs later.
  assert (Hin : r2 ∈ recs2 ++ r2 :: recs3).
  { rewrite elem_of_app, elem_of_cons. auto. }
  assert (Hsame : forall e r, lastBlock recs e r = lastBlock later e r).
  { intros e r. by apply (lastBlock_shadowed recs1 r1 _ r2). }
  assert (Hrep : forall name, reportOf (rangeOrder h) name recs
                              = reportOf (rangeOrder h) name later).
  { intros name. unfold reportOf.
    apply render_same; [by apply assemble_same | apply Hv | apply Hv]. }
  assert (Hlast : lastBlock recs (environment r2) (region r2) = Some (blockText r2)).
  { subst recs. rewrite lastBlock_app. simpl. rewrite lastBlock_app. simpl.
    rewrite (lastBlock_none recs3) by done. by rewrite !String.eqb_refl. }
  pose proof (assemble_groups recs (environment r2)) as Hg.
  destruct (assemble recs !! environment r2) as [env|] eqn:Hl; simpl in Hg.
  2: { exfalso. apply (Hg r2); [|done]. subst recs.
       rewrite elem_of_app, elem_of_cons, elem_of_app, elem_of_cons. auto. }
  destruct Hg as (Hn & Hnd & Hreg & Hpl & _).
  assert (Hblock : Plans env !! region r2 = Some (blockText r2)) by (by rewrite Hpl).
  split; [eauto|]. split; [apply Hrep|]. split.
  - intros Hne. unfold reportOf, render, renderSorted.
    assert (Hk : environment r2 ∈ sortStrings (rangeOrder h (assemble recs))).
    { rewrite sortStrings_elem, (Hv (assemble recs)), keysOf_elem. eauto. }
    destruct (concat_map_elem
                (fun n => match assemble recs !! n with
                          | Some env => renderEnvironment moduleName env
                          | None => ""
                          end) _ _ Hk) as (pre & post & ->).
    rewrite Hl. unfold renderEnvironment, renderRegions.
    assert (Hrk : region r2 ∈ sortStrings (Regions env)).
    { rewrite sortStrings_elem, Hreg. exists r2. split; [|done]. subst recs.
      rewrite elem_of_app, elem_of_cons, elem_of_app, elem_of_cons. auto. }
    destruct (concat_map_elem (renderRegion env) _ _ Hrk) as (pre' & post' & ->).
    unfold renderRegion at 1. rewrite Hblock.
    apply nonEmpty_true in Hne. rewrite Hne.
    exists (pre +:+ envHeader moduleName env +:+ pre'), (post' +:+ post).
    by rewrite !append_assoc.
  - intros pg isGovcloud contentStr Hem.
    split; [by rewrite scan_assemble, Hem|].
    by rewrite planReport_records, Hem, Hrep.
Qed.

Lemma last_write_wins_witness :
  let recs := [] ++ Samples.oldBlock :: [Samples.otherBlock] ++ Samples.newBlock :: [] in
  let later := [] ++ [Samples.otherBlock] ++ Samples.newBlock :: [] in
  (exists env, assemble recs !! environment Samples.newBlock = Some env /\
               Plans env !! region Samples.newBlock = Some (blockText Samples.newBlock)) /\
  reportOf (rangeOrder Samples.reversedRange) "s3" recs =
    reportOf (rangeOrder Samples.reversedRange) "s3" later /\
  (blockText Samples.newBlock <> "" ->
   exists pre post,
     reportOf (rangeOrder Samples.reversedRange) "s3" recs =
     pre +:+ (blockOpen (region Samples.newBlock) +:+ blockText Samples.newBlock
              +:+ blockClose) +:+ post) /\
  (forall pg isGovcloud contentStr,
     emitted (scan isGovcloud contentStr) = recs ->
     environments (scan isGovcloud contentStr) = assemble recs /\
     planReport Samples.reversedRange pg isGovcloud contentStr =
       reportOf (rangeOrder Samples.reversedRange) (ModuleName pg) later).
Proof.
  apply (last_write_wins Samples.reversedRange "s3" [] Samples.oldBlock
           [Samples.otherBlock] Samples.newBlock []);
    [by apply validRange_reverse | reflexivity | reflexivity | constructor].
Defined.

Lemma environments_NoDup (isGovcloud : bool) (contentStr n : string) (env : Environment) :
  environments (scan isGovcloud contentStr) !! n = Some env ->
  Name env = n /\ NoDup (Regions env).
Proof.
  intros H. rewrite scan_assemble in H.
  pose proof (assemble_groups (emitted (scan isGovcloud contentStr)) n) as Hg.
  rewrite H in Hg. simpl in Hg. by destruct Hg as (? & ? & _).
Qed.

(** C7.  For a fixed content the text that [processPlansFile] writes is the
    same whatever the order in which the map iteration delivers the names,
    and whatever the order in which the regions of an environment were first
    seen; two runs on the same files write the same bytes.  The text is the
    sections of the names in ascending byte order, each name once, and in a
    section the blocks of its regions in ascending byte order, each region
    once. *)
Theorem report_deterministic (h1 h2 : Host) (pg : PlanGenerator) (isGovcloud : bool)
  (contentStr : string) :
  validRange h1 -> validRange h2 ->
  let m := environments (scan isGovcloud contentStr) in
  let names := sortStrings (rangeOrder h1 m) in
  (forall filename output w,
     processPlansFile h1 pg filename output isGovcloud w =
     processPlansFile h2 pg filename output isGovcloud w) /\
  planReport h1 pg isGovcloud contentStr = planReport h2 pg isGovcloud contentStr /\
  (forall m' order', sameGrouping m m' -> order' ≡ₚ keysOf m' ->
     render (ModuleName pg) m' order' = planReport h1 pg isGovcloud contentStr) /\
  planReport h1 pg isGovcloud contentStr =
    String.concat ""
      (map (fun n => match m !! n with
                     | Some env =>
                         envHeader (ModuleName pg) env +:+
                         String.concat "" (map (renderRegion env) (sortStrings (Regions env)))
                     | None => ""
                     end) names) /\
  StronglySorted string_le names /\ NoDup names /\
  (forall n, n ∈ names <-> is_Some (m !! n)) /\
  (forall n env, m !! n = Some env ->
     Name env = n /\
     StronglySorted string_le (sortStrings (Regions env)) /\
     NoDup (sortStrings (Regions env)) /\
     sortStrings (Regions env) ≡ₚ Regions env).
Proof.
  intros H1 H2 m names. repeat split.
  - intros filename output w. unfold processPlansFile.
    destruct (files w !! filename) as [c|]; [|done].
    by rewrite (planReport_range h1 h2 pg isGovcloud c H1 H2).
  - by apply planReport_range.
  - intros m' order' Hm Ho. unfold planReport. fold m. symmetry.
    by apply render_same.
  - apply sortStrings_sorted.
  - apply sortStrings_NoDup. rewrite (H1 m). apply keysOf_NoDup.
  - subst names. rewrite sortStrings_elem, (H1 m). apply keysOf_elem.
  - subst names. rewrite sortStrings_elem, (H1 m). apply keysOf_elem.
  - by destruct (environments_NoDup isGovcloud contentStr n env).
  - apply sortStrings_sorted.
  - apply sortStrings_NoDup. by destruct (environments_NoDup isGovcloud contentStr n env).
  - apply sortStrings_perm.
Qed.

Lemma report_deterministic_witness :
  let m := environments (scan false Samples.twoEnvironments) in
  let names := sortStrings (rangeOrder Samples.commercialDown m) in
  (forall filename output w,
     processPlansFile Samples.commercialDown Samples.pg filename output false w =
     processPlansFile Samples.reversedRange Samples.pg filename output false w) /\
  planReport Samples.commercialDown Samples.pg false Samples.twoEnvironments =
    planReport Samples.reversedRange Samples.pg false Samples.twoEnvironments /\
  (forall m' order', sameGrouping m m' -> order' ≡ₚ keysOf m' ->
     render (ModuleName Samples.pg) m' order' =
     planReport Samples.commercialDown Samples.pg false Samples.twoEnvironments) /\
  planReport Samples.commercialDown Samples.pg false Samples.twoEnvironments =
    String.concat ""
      (map (fun n => match m !! n with
                     | Some env =>
                         envHeader (ModuleName Samples.pg) env +:+
                         String.concat "" (map (renderRegion env) (sortStrings (Regions env)))
                     | None => ""
                     end) names) /\
  StronglySorted string_le names /\ NoDup names /\
  (forall n, n ∈ names <-> is_Some (m !! n)) /\
  (forall n env, m !! n = Some env ->
     Name env = n /\
     StronglySorted string_le (sortStrings (Regions env)) /\
     NoDup (sortStrings (Regions env)) /\
     sortStrings (Regions env) ≡ₚ Regions env).
Proof.
  apply (report_deterministic Samples.commercialDown Samples.reversedRange Samples.pg
           false Samples.twoEnvironments);
    [by apply validRange_keysOf | by apply validRange_reverse].
Defined.

(** The end-to-end example: a staging marker, a region marker and one block
    give one record, and the report has one staging section with one
    eu-west-1 block holding the text of the block. *)
Example one_block_records :
  emitted (scan false Samples.planText) =
  [mkRecord "staging" "eu-west-1"
     (Join [Samples.headerLine; "  + resource"; Samples.footerLine])].
Proof. vm_compute. reflexivity. Qed.

Example one_block_report :
  planReport Samples.commercialDown Samples.pg false Samples.planText =
  "## [environment: staging] - [command: kitman tg plan_all] - [module: s3_malware_protection]"
    +:+ nl +:+ nl +:+
  "<details>" +:+ nl +:+ "<summary>eu-west-1</summary>" +:+ nl +:+ nl +:+
  "```bash" +:+ nl +:+
  Join [Samples.headerLine; "  + resource"; Samples.footerLine] +:+ nl +:+
  "```" +:+ nl +:+ nl +:+ "</details>" +:+ nl +:+ nl.
Proof. vm_compute. reflexivity. Qed.

(** Names and regions come out sorted, not in the order of the plans. *)
Example two_environments_sections :
  let m := environments (scan false Samples.twoEnvironments) in
  sortStrings (rangeOrder Samples.reversedRange m) = ["production"; "staging"] /\
  (Regions <$> m !! "staging") = Some ["us-east-1"; "eu-west-1"] /\
  (sortStrings <$> (Regions <$> m !! "staging")) = Some ["eu-west-1"; "us-east-1"].
Proof. vm_compute. repeat split. Qed.

End ReportFacts.

(** ** Substrings, lines and joins *)
Module ContainsFacts.
Import GoStrings StringFacts.

Lemma prefix_iff (a s : string) :
  String.prefix a s = true <-> exists post, s = a +:+ post.
Proof.
  revert s; induction a as [|x a IH]; intros s.
  - split; [intros _; by exists s | by destruct s].
  - destruct s as [|y s]; simpl.
    + split; [done | by intros [post H]].
    + destruct (ascii_dec x y) as [->|Hne].
      * rewrite IH. split; intros [post H]; exists post.
        -- by rewrite append_String, H.
        -- rewrite append_String in H. by injection H.
      * split; [done|]. intros [post H]. rewrite append_String in H. congruence.
Qed.

(** [strings.Contains] holds exactly of the strings that have [sub]
    somewhere between a front and a back part. *)
Lemma Contains_iff (s sub : string) :
  Contains s sub = true <-> exists pre post, s = pre +:+ sub +:+ post.
Proof.
  induction s as [|x s IH].
  - change (Contains "" sub) with (String.prefix sub "" || false).
    rewrite orb_false_r, prefix_iff. split.
    + intros [post H]. by exists "", post.
    + intros (pre & post & H). destruct pre; [by exists post|done].
  - change (Contains (String x s) sub)
      with (String.prefix sub (String x s) || Contains s sub).
    rewrite orb_true_iff, prefix_iff, IH. split.
    + intros [[post H]|(pre & post & H)].
      * by exists "", post.
      * exists (String x pre), post. by rewrite append_String, H.
    + intros (pre & post & H). destruct pre as [|y pre].
      * left. by exists post.
      * right. rewrite append_String in H. injection H as -> ->. by exists pre, post.
Qed.

Lemma Contains_refl (s : string) : Contains s s = true.
Proof. apply Contains_iff. exists "", "". by rewrite append_nil_r. Qed.

Lemma Contains_trans (a b c : string) :
  Contains a b = true -> Contains b c = true -> Contains a c = true.
Proof.
  rewrite !Contains_iff. intros (p1 & q1 & ->) (p2 & q2 & ->).
  exists (p1 +:+ p2), (q2 +:+ q1). by rewrite !append_assoc.
Qed.

Lemma Contains_middle (pre sub post : string) : Contains (pre +:+ sub +:+ post) sub = true.
Proof. apply Contains_iff. by exists pre, post. Qed.

Lemma Contains_nonempty (s sub : string) : Contains s sub = true -> sub <> "" -> s <> "".
Proof.
  intros (pre & post & ->)%Contains_iff Hne H.
  destruct pre; [destruct sub|]; done.
Qed.

Lemma Join_cons (l : string) (ls : list string) :
  ls <> [] -> Join (l :: ls) = l +:+ String newline "" +:+ Join ls.
Proof. by destruct ls. Qed.

Lemma Split_nonempty (s : string) : Split s <> [].
Proof.
  induction s as [|c s IH]; simpl; [done|].
  destruct (Ascii.eqb c newline); [done|]. by destruct (Split s).
Qed.

(** Joining the lines of a content gives the content back. *)
Lemma Join_Split (s : string) : Join (Split s) = s.
Proof.
  induction s as [|c s IH]; [done|]. simpl.
  destruct (Ascii.eqb_spec c newline) as [->|Hne].
  - rewrite Join_cons by apply Split_nonempty. by rewrite IH.
  - pose proof (Split_nonempty s) as Hs. destruct (Split s) as [|l ls]; [done|].
    destruct ls as [|l' ls].
    + change (Join [l]) with l in IH. change (Join [String c l]) with (String c l).
      by rewrite IH.
    + rewrite Join_cons in IH by done. rewrite Join_cons by done.
      by rewrite append_String, IH.
Qed.

Lemma Join_app (l k : list string) :
  l <> [] -> k <> [] -> Join (l ++ k) = Join l +:+ String newline "" +:+ Join k.
Proof.
  intros Hl Hk. induction l as [|x l IH]; [done|].
  destruct l as [|y l].
  - simpl app. by rewrite Join_cons.
  - rewrite <- app_comm_cons, Join_cons by done. rewrite IH by done.
    rewrite (Join_cons x) by done. by rewrite !append_assoc.
Qed.

(** The join of consecutive lines is a piece of the join of all lines. *)
Lemma Join_consecutive (pre block post : list string) :
  block <> [] -> Contains (Join (pre ++ block ++ post)) (Join block) = true.
Proof.
  intros Hb. apply Contains_iff.
  assert (Hbp : forall post, exists b, Join (block ++ post) = Join block +:+ b).
  { intros q. destruct q as [|x q].
    - exists "". by rewrite app_nil_r, append_nil_r.
    - eexists. by rewrite Join_app. }
  destruct (Hbp post) as [b Hb'].
  destruct pre as [|x pre].
  - exists "", b. by rewrite app_nil_l, Hb'.
  - exists (Join (x :: pre) +:+ String newline ""), b.
    rewrite Join_app; [|done|by destruct block]. by rewrite Hb', !append_assoc.
Qed.

End ContainsFacts.

(** ** What the scanner keeps true from line to line *)
Module ScanInvariants.
Import GoStrings Scanner Report Shapes StringFacts ContainsFacts ScannerFacts.

Lemma consecutiveIn_more (block seen more : list string) :
  consecutiveIn block seen -> consecutiveIn block (seen ++ more).
Proof.
  intros (pre & post & ->). exists pre, (post ++ more). by rewrite <- !app_assoc.
Qed.

Lemma goodRecord_more (seen more : list string) (r : ActionRecord) :
  goodRecord seen r -> goodRecord (seen ++ more) r.
Proof.
  intros (He & Hr & block & Hb & Hc & Ht). repeat split; try done.
  exists block. eauto using consecutiveIn_more.
Qed.

Lemma collect_inv (seen : list string) (line : string) (st : ScanState) :
  scanInv seen st -> scanInv (seen ++ [line]) (collect line st).
Proof.
  intros [Hin Hem].
  assert (Hem' : Forall (goodRecord (seen ++ [line])) (emitted st)).
  { eapply Forall_impl; [exact Hem|]. intros r. apply goodRecord_more. }
  unfold collect. destruct (isHeader line) eqn:Hh.
  - split; [|done]. intros _. exists seen, line, []. by simpl.
  - destruct (inPlanSection st) eqn:Hs; [|split; [by rewrite Hs | done]].
    destruct (Hin eq_refl) as (pre & h & body & Hseen & Hpl & Hhh & Hbody).
    destruct (isFooter line) eqn:Hf.
    + destruct (nonEmpty (currentEnv st) && nonEmpty (currentRegion st)) eqn:Hne.
      * split; [done|]. simpl. apply Forall_app. split; [done|].
        apply Forall_singleton. apply andb_true_iff in Hne as [He Hr].
        apply nonEmpty_true in He, Hr. repeat split; simpl; try done.
        exists (planLines st ++ [line]). repeat split.
        -- exists h, body, line. by rewrite Hpl.
        -- exists pre, []. by rewrite Hseen, app_nil_r, <- app_assoc.
      * by split.
    + split; [|done]. intros _. simpl.
      exists pre, h, (body ++ [line]). repeat split; try done.
      * by rewrite Hseen, <- app_assoc.
      * by rewrite Hpl.
      * apply Forall_app. split; [done|]. by apply Forall_singleton.
Qed.

Lemma scanLine_inv (isGovcloud : bool) (seen : list string) (line : string) (st : ScanState) :
  scanInv seen st -> scanInv (seen ++ [line]) (scanLine isGovcloud st line).
Proof. intros H. by apply collect_inv. Qed.

Lemma scanFrom_inv (isGovcloud : bool) (lines seen : list string) (st : ScanState) :
  scanInv seen st -> scanInv (seen ++ lines) (scanFrom isGovcloud st lines).
Proof.
  revert seen st; induction lines as [|l lines IH]; intros seen st H.
  - by rewrite app_nil_r.
  - change (scanFrom isGovcloud st (l :: lines))
      with (scanFrom isGovcloud (scanLine isGovcloud st l) lines).
    rewrite (cons_middle l), app_assoc. apply IH. by apply scanLine_inv.
Qed.

Lemma scan_inv (isGovcloud : bool) (contentStr : string) :
  scanInv (Split contentStr) (scan isGovcloud contentStr).
Proof.
  unfold scan. rewrite <- (app_nil_l (Split contentStr)) at 1.
  apply scanFrom_inv. split; [done | constructor].
Qed.

Lemma blockLines_text (block : list string) :
  blockLines block ->
  block <> [] /\ Join block <> "" /\
  Contains (Join block) headerPhrase = true /\ Contains (Join block) "Plan:" = true.
Proof.
  intros (h & body & f & -> & Hh & _ & _ & Hf).
  assert (Hc1 : Contains (Join (h :: body ++ [f])) headerPhrase = true).
  { apply (Contains_trans _ (Join [h])); [|exact Hh].
    apply (Join_consecutive [] [h] (body ++ [f])). done. }
  assert (Hc2 : Contains (Join (h :: body ++ [f])) "Plan:" = true).
  { apply (Contains_trans _ (Join [f])).
    - rewrite (app_comm_cons body [f] h). rewrite <- (app_nil_r [f]) at 1.
      by apply (Join_consecutive (h :: body) [f] []).
    - unfold isFooter in Hf. by apply andb_true_iff in Hf as [Hf _]. }
  repeat split; try done. by eapply Contains_nonempty.
Qed.

(** X1.  Every record that a scan stores carries an environment and a
    region: a block that closes while either marker is still unset leaves
    no record. *)
Theorem records_have_context (isGovcloud : bool) (contentStr : string) :
  Forall (fun r => environment r <> "" /\ region r <> "")
    (emitted (scan isGovcloud contentStr)).
Proof.
  destruct (scan_inv isGovcloud contentStr) as [_ H].
  eapply Forall_impl; [exact H|]. by intros r (? & ? & _).
Qed.

(** X2.  The text of every stored record is the join of a header line, lines
    that neither start nor end a block, and one closing line; so it is not
    empty and contains the header phrase and "Plan:". *)
Theorem records_are_blocks (isGovcloud : bool) (contentStr : string) :
  Forall (fun r =>
            (exists block, blockLines block /\ blockText r = Join block) /\
            blockText r <> "" /\
            Contains (blockText r) headerPhrase = true /\
            Contains (blockText r) "Plan:" = true)
    (emitted (scan isGovcloud contentStr)).
Proof.
  destruct (scan_inv isGovcloud contentStr) as [_ H].
  eapply Forall_impl; [exact H|]. intros r (_ & _ & block & Hb & _ & ->).
  destruct (blockLines_text block Hb) as (_ & ? & ? & ?). eauto 10.
Qed.

(** X3.  The text of every stored record is a verbatim excerpt: its lines
    stand as consecutive lines in the content, and the text is a substring
    of the content. *)
Theorem records_are_excerpts (isGovcloud : bool) (contentStr : string) :
  Forall (fun r =>
            (exists block, consecutiveIn block (Split contentStr) /\
                           blockText r = Join block) /\
            Contains contentStr (blockText r) = true)
    (emitted (scan isGovcloud contentStr)).
Proof.
  destruct (scan_inv isGovcloud contentStr) as [_ H].
  eapply Forall_impl; [exact H|]. intros r (_ & _ & block & Hb & Hc & ->).
  split; [eauto|]. destruct Hc as (pre & post & Hsplit).
  rewrite <- (Join_Split contentStr) at 1. rewrite Hsplit.
  apply Join_consecutive. by destruct (blockLines_text block Hb).
Qed.

(** Without a closing line nothing is stored. *)
Lemma scanLine_no_footer (isGovcloud : bool) (st : ScanState) (line : string) :
  isFooter line = false ->
  emitted (scanLine isGovcloud st line) = emitted st /\
  environments (scanLine isGovcloud st line) = environments st.
Proof.
  intros Hf. unfold scanLine, collect. rewrite Hf.
  destruct (updateMarkers_keeps isGovcloud line st) as (_ & _ & Hm & He).
  destruct (isHeader line); [done|].
  by destruct (inPlanSection (updateMarkers isGovcloud line st)).
Qed.

(** X4.  Lines of which none is a closing line (none has "Plan:" with a
    change count) store nothing, whatever headers and markers they hold: a
    block that is never closed is dropped without a record. *)
Theorem unterminated_block_dropped (isGovcloud : bool) (st : ScanState)
  (lines : list string) :
  Forall (fun l => isFooter l = false) lines ->
  emitted (scanFrom isGovcloud st lines) = emitted st /\
  environments (scanFrom isGovcloud st lines) = environments st.
Proof.
  revert st; induction lines as [|l lines IH]; intros st Hall; [done|].
  inversion Hall as [|? ? Hl Hall']; subst.
  change (scanFrom isGovcloud st (l :: lines))
    with (scanFrom isGovcloud (scanLine isGovcloud st l) lines).
  destruct (IH (scanLine isGovcloud st l) Hall') as [-> ->].
  by apply scanLine_no_footer.
Qed.

Lemma unterminated_block_dropped_witness :
  emitted (scanFrom false initial [Samples.markerLine; Samples.headerLine; "  + first"])
  = emitted initial /\
  environments (scanFrom false initial [Samples.markerLine; Samples.headerLine; "  + first"])
  = environments initial.
Proof.
  apply (unterminated_block_dropped false initial
           [Samples.markerLine; Samples.headerLine; "  + first"]).
  repeat constructor.
Defined.

(** The markers follow the marker lines alone. *)
Lemma scanFrom_markers (isGovcloud : bool) (lines : list string) (st : ScanState) :
  currentEnv (scanFrom isGovcloud st lines) =
    latest (envRegex isGovcloud) lines (currentEnv st) /\
  currentRegion (scanFrom isGovcloud st lines) =
    latest (regionRegex isGovcloud) lines (currentRegion st).
Proof.
  revert st; induction lines as [|l lines IH]; intros st; [done|].
  change (scanFrom isGovcloud st (l :: lines))
    with (scanFrom isGovcloud (scanLine isGovcloud st l) lines).
  destruct (IH (scanLine isGovcloud st l)) as [-> ->].
  by destruct (scanLine_markers isGovcloud st l) as [-> ->].
Qed.

(** X5.  A block is filed under the markers seen last, wherever they stand:
    after any lines [before], a header line, the lines of the block and its
    closing line, the record stored is the block's text under the captures
    of the last matching lines up to and including the closing line, when
    both exist; when the environment or the region was never seen, nothing
    is stored. *)
Theorem block_filed_under_latest_markers (isGovcloud : bool) (before : list string)
  (h : string) (body : list string) (f : string) :
  isHeader h = true -> Forall isMiddle body -> isHeader f = false -> isFooter f = true ->
  let lines := before ++ h :: body ++ [f] in
  let env := latest (envRegex isGovcloud) lines "" in
  let reg := latest (regionRegex isGovcloud) lines "" in
  emitted (scanFrom isGovcloud initial lines) =
    emitted (scanFrom isGovcloud initial before) ++
    (if nonEmpty env && nonEmpty reg
     then [mkRecord env reg (Join (h :: body ++ [f]))] else []).
Proof.
  intros Hh Hbody Hfh Hff lines env reg.
  set (st := scanFrom isGovcloud initial before).
  destruct (scanLine_header isGovcloud st h Hh) as (Hp & Hi & _ & He).
  destruct (scanFrom_body isGovcloud body _ Hi Hbody) as (Hp' & Hi' & _ & He').
  assert (Hst : scanFrom isGovcloud initial lines =
                scanLine isGovcloud
                  (scanFrom isGovcloud (scanLine isGovcloud st h) body) f).
  { subst lines st. change (h :: body ++ [f]) with ([h] ++ body ++ [f]).
    by rewrite !scanFrom_app. }
  pose proof (scanLine_footer isGovcloud _ f Hi' Hfh Hff) as Hfoot.
  simpl in Hfoot. rewrite <- Hst in Hfoot.
  destruct (scanFrom_markers isGovcloud lines initial) as [Hce Hcr].
  simpl in Hce, Hcr. fold env in Hce. fold reg in Hcr.
  rewrite Hce, Hcr in Hfoot. destruct Hfoot as (_ & _ & Hrec).
  rewrite Hp', Hp, He', He in Hrec.
  destruct (nonEmpty env && nonEmpty reg).
  - by destruct Hrec as [-> _].
  - destruct Hrec as [-> _]. by rewrite app_nil_r.
Qed.

Lemma block_filed_under_latest_markers_witness :
  let lines := [Samples.markerLine] ++ Samples.headerLine :: ["  + x"] ++ [Samples.footerLine] in
  let env := latest (envRegex false) lines "" in
  let reg := latest (regionRegex false) lines "" in
  emitted (scanFrom false initial lines) =
    emitted (scanFrom false initial [Samples.markerLine]) ++
    (if nonEmpty env && nonEmpty reg
     then [mkRecord env reg (Join (Samples.headerLine :: ["  + x"] ++ [Samples.footerLine]))]
     else []).
Proof.
  apply (block_filed_under_latest_markers false [Samples.markerLine] Samples.headerLine
           ["  + x"] Samples.footerLine);
    [reflexivity | repeat constructor | reflexivity | reflexivity].
Defined.

End ScanInvariants.

(** ** The grouping that a scan builds *)
Module GroupingFacts.
Import GoStrings Scanner Report Exec Shapes StringFacts SortFacts ContainsFacts
  ScannerFacts ReportFacts ScanInvariants.

Lemma lastBlock_In (recs : list ActionRecord) (e r text : string) :
  lastBlock recs e r = Some text -> exists x, x ∈ recs /\ blockText x = text.
Proof.
  induction recs as [|x recs IH]; simpl; [done|].
  destruct (lastBlock recs e r) as [t|].
  - intros [= <-]. destruct IH as (y & ? & ?); [done|]. exists y. rewrite elem_of_cons. auto.
  - destruct (String.eqb (environment x) e && String.eqb (region x) r); [|done].
    intros [= <-]. exists x. rewrite elem_of_cons. auto.
Qed.

Lemma emitted_text_nonempty (isGovcloud : bool) (contentStr : string) (x : ActionRecord) :
  x ∈ emitted (scan isGovcloud contentStr) -> blockText x <> "".
Proof.
  intros Hx. destruct (scan_inv isGovcloud contentStr) as [_ H].
  rewrite Forall_forall in H. destruct (H x Hx) as (_ & _ & block & Hb & _ & ->).
  by destruct (blockLines_text block Hb) as (_ & ? & _).
Qed.

(** X6.  In the grouping that a scan builds, an environment stands under
    its own name, has at least one region and no region twice, has a plan for
    exactly its regions, and every such plan is a non-empty text: rendering
    writes one fenced block per region, the guard on a missing or empty plan
    never skips one. *)
Theorem every_region_rendered (isGovcloud : bool) (contentStr n : string)
  (env : Environment) :
  environments (scan isGovcloud contentStr) !! n = Some env ->
  Name env = n /\ Regions env <> [] /\ NoDup (Regions env) /\
  (forall reg, reg ∈ Regions env <-> is_Some (Plans env !! reg)) /\
  (forall reg, reg ∈ Regions env ->
     exists text, Plans env !! reg = Some text /\ text <> "" /\
                  renderRegion env reg = blockOpen reg +:+ text +:+ blockClose).
Proof.
  intros H. rewrite scan_assemble in H.
  pose proof (assemble_groups (emitted (scan isGovcloud contentStr)) n) as Hg.
  rewrite H in Hg. simpl in Hg. destruct Hg as (Hn & Hnd & Hr & Hp & (x & Hx & Hxe)).
  assert (Hiff : forall reg, reg ∈ Regions env <-> is_Some (Plans env !! reg)).
  { intros reg. by rewrite Hr, Hp, lastBlock_Some. }
  repeat split; try done.
  - intros Hnil. assert (Hin : region x ∈ Regions env) by (apply Hr; eauto).
    rewrite Hnil in Hin. by apply elem_of_nil in Hin.
  - by apply Hiff.
  - by apply Hiff.
  - intros reg [text Ht]%Hiff. exists text.
    assert (Hne : text <> "").
    { rewrite Hp in Ht. apply lastBlock_In in Ht as (y & Hy & <-).
      by eapply emitted_text_nonempty. }
    repeat split; try done. unfold renderRegion. rewrite Ht.
    apply nonEmpty_true in Hne. by rewrite Hne.
Qed.

Lemma every_region_rendered_witness :
  exists env,
    environments (scan false Samples.twoEnvironments) !! "staging" = Some env /\
    Name env = "staging" /\ Regions env <> [] /\ NoDup (Regions env) /\
    (forall reg, reg ∈ Regions env <-> is_Some (Plans env !! reg)) /\
    (forall reg, reg ∈ Regions env ->
       exists text, Plans env !! reg = Some text /\ text <> "" /\
                    renderRegion env reg = blockOpen reg +:+ text +:+ blockClose).
Proof.
  destruct (environments (scan false Samples.twoEnvironments) !! "staging") as [env|] eqn:H;
    [|vm_compute in H; discriminate H].
  exists env. split; [reflexivity|].
  exact (every_region_rendered false Samples.twoEnvironments "staging" env H).
Defined.

Lemma append_empty (a b : string) : a +:+ b = "" -> a = "" /\ b = "".
Proof. by destruct a. Qed.

(** X7.  The text written for a content is empty exactly when the scan
    stored no record: a content without a complete block under an
    environment and a region adds nothing to the report, and any stored
    record adds a section. *)
Theorem report_empty_iff_no_record (h : Host) (pg : PlanGenerator) (isGovcloud : bool)
  (contentStr : string) :
  validRange h ->
  (planReport h pg isGovcloud contentStr = "" <->
   emitted (scan isGovcloud contentStr) = []).
Proof.
  intros Hv. rewrite planReport_records. unfold reportOf, render, renderSorted.
  set (recs := emitted (scan isGovcloud contentStr)). split.
  - intros Hempty. destruct recs as [|x recs'] eqn:Hrecs; [done|]. exfalso.
    pose proof (assemble_groups recs (environment x)) as Hg.
    destruct (assemble recs !! environment x) as [env|] eqn:Hl; simpl in Hg.
    2: { apply (Hg x); [|done]. subst recs. rewrite Hrecs. by left. }
    assert (Hk : environment x ∈ sortStrings (rangeOrder h (assemble recs))).
    { rewrite sortStrings_elem, (Hv (assemble recs)), keysOf_elem. eauto. }
    rewrite <- Hrecs in Hempty.
    destruct (concat_map_elem
                (fun n => match assemble recs !! n with
                          | Some env => renderEnvironment (ModuleName pg) env
                          | None => ""
                          end) _ _ Hk) as (pre & post & Heq).
    rewrite Heq, Hl in Hempty.
    apply append_empty in Hempty as [_ Hempty].
    apply append_empty in Hempty as [Hempty _].
    unfold renderEnvironment in Hempty. apply append_empty in Hempty as [Hempty _].
    unfold envHeader in Hempty. apply append_empty in Hempty as [Hempty _]. done.
  - intros ->. unfold assemble; simpl.
    assert (Hnil : rangeOrder h (∅ : gmap string Environment) = []).
    { apply Permutation_nil_r. rewrite (Hv ∅). unfold keysOf. by rewrite map_to_list_empty. }
    by rewrite Hnil.
Qed.

Lemma report_empty_iff_no_record_witness :
  planReport Samples.reversedRange Samples.pg false "no plan here" = "" <->
  emitted (scan false "no plan here") = [].
Proof.
  apply (report_empty_iff_no_record Samples.reversedRange Samples.pg false "no plan here").
  by apply validRange_reverse.
Defined.

(** X8.  One store: afterwards the environment exists under its name and
    holds the text under the region, the region is listed, once; the plans
    of its other regions and all other environments are as before; and the
    list of regions grows by the new region alone, at its end. *)
Theorem storeBlock_lookup (env reg text : string) (m : gmap string Environment) :
  let regsBefore := default [] (Regions <$> m !! env) in
  exists e,
    storeBlock env reg text m !! env = Some e /\
    Plans e !! reg = Some text /\
    reg ∈ Regions e /\
    Regions e = (if contains regsBefore reg then regsBefore else regsBefore ++ [reg]) /\
    (NoDup regsBefore -> NoDup (Regions e)) /\
    (forall r, r <> reg -> Plans e !! r = (m !! env) ≫= (fun e0 => Plans e0 !! r)) /\
    (forall n, n <> env -> storeBlock env reg text m !! n = m !! n).
Proof.
  intros regsBefore. unfold storeBlock. eexists. rewrite lookup_insert_eq.
  split; [reflexivity|]. simpl.
  assert (Hregs : Regions match m !! env with
                          | Some e => e
                          | None => mkEnvironment env [] ∅
                          end = regsBefore).
  { subst regsBefore. by destruct (m !! env). }
  rewrite Hregs. repeat split.
  - by rewrite lookup_insert_eq.
  - destruct (contains regsBefore reg) eqn:Hc.
    + by apply contains_elem.
    + apply elem_of_app. right. by apply list_elem_of_singleton.
  - intros Hnd. destruct (contains regsBefore reg) eqn:Hc; [done|].
    apply NoDup_app. repeat split; [done| |apply NoDup_singleton].
    intros r Hin ->%list_elem_of_singleton. apply contains_elem in Hin. congruence.
  - intros r Hr. rewrite lookup_insert_ne by done. by destruct (m !! env).
  - intros n Hn. by rewrite lookup_insert_ne.
Qed.

End GroupingFacts.

(** ** A whole run *)
Module RunFacts.
Import GoStrings Scanner Report Exec RunShapes StringFacts ExecFacts.

Lemma world_eq (w : World) : mkWorld (files w) (calls w) = w.
Proof. by destruct w. Qed.

Lemma append_nil_l (a : string) : "" +:+ a = a.
Proof. reflexivity. Qed.

Lemma WriteString_created (f c a : string) (fs : gmap string string)
  (cs : list (list string)) :
  WriteString f a (mkWorld (<[f := c]> fs) cs) = mkWorld (<[f := c +:+ a]> fs) cs.
Proof. unfold WriteString; simpl. by rewrite lookup_insert_eq, insert_insert_eq. Qed.

(** [processPlansFile] either leaves everything as it is or appends the
    sections of the group to the open report. *)
Lemma processPlansFile_eq (h : Host) (pg : PlanGenerator) (filename output : string)
  (isGovcloud : bool) (w : World) :
  processPlansFile h pg filename output isGovcloud w =
  (None,
   if skipped (files w !! filename) then w
   else WriteString output (sectionsOf h pg isGovcloud (files w !! filename)) w).
Proof.
  unfold processPlansFile, sectionsOf, skipped.
  destruct (files w !! filename) as [c|]; [|done].
  destruct (String.eqb c ""); [done|]. simpl.
  by destruct (Contains c "No commercial plans needed" || Contains c "No GovCloud plans needed").
Qed.

(** X9.  [processPlansFile] never fails, starts no executor and changes no
    file but the report it appends to; a group file that is missing, empty
    or a placeholder leaves the report as it is too. *)
Theorem processPlansFile_appends_only (h : Host) (pg : PlanGenerator)
  (filename output : string) (isGovcloud : bool) (w : World) :
  let r := processPlansFile h pg filename output isGovcloud w in
  r.1 = None /\ calls r.2 = calls w /\
  (forall g, g <> output -> files r.2 !! g = files w !! g) /\
  (skipped (files w !! filename) = true -> r.2 = w) /\
  (skipped (files w !! filename) = false ->
   files r.2 !! output =
     Some (default "" (files w !! output)
           +:+ sectionsOf h pg isGovcloud (files w !! filename))).
Proof.
  intros r. subst r. rewrite processPlansFile_eq. simpl.
  destruct (skipped (files w !! filename)); repeat split; try done.
  - intros g Hg. simpl. by rewrite lookup_insert_ne.
  - intros _. simpl. by rewrite lookup_insert_eq.
Qed.

Lemma generatePRMarkdown_created (h : Host) (pg : PlanGenerator) (w : World) :
  createErr h "pr-ready.md" = None ->
  generatePRMarkdown h pg w =
  (None,
   mkWorld
     (<["pr-ready.md" :=
          reportTitle
          +:+ sectionsOf h pg false (files w !! "commercial-plans.txt")
          +:+ sectionsOf h pg true (files w !! "govcloud-plans.txt")]> (files w))
     (calls w)).
Proof.
  intros Hcreate. unfold generatePRMarkdown. rewrite Hcreate.
  rewrite WriteString_created.
  change ("" +:+ "**Terraform plan**" +:+ nl +:+ nl) with reportTitle.
  assert (Hsec : forall g file, skipped file = true -> sectionsOf h pg g file = "").
  { intros g file Hs. unfold sectionsOf. rewrite Hs. by destruct file. }
  assert (Hc1 : forall c, <["pr-ready.md" := c]> (files w) !! "commercial-plans.txt"
                          = files w !! "commercial-plans.txt").
  { intros c. by rewrite lookup_insert_ne. }
  assert (Hg1 : forall c, <["pr-ready.md" := c]> (files w) !! "govcloud-plans.txt"
                          = files w !! "govcloud-plans.txt").
  { intros c. by rewrite lookup_insert_ne. }
  rewrite processPlansFile_eq. cbn [files]. rewrite Hc1.
  destruct (skipped (files w !! "commercial-plans.txt")) eqn:Hc.
  - rewrite (Hsec _ _ Hc), processPlansFile_eq. cbn [files]. rewrite Hg1.
    destruct (skipped (files w !! "govcloud-plans.txt")) eqn:Hg.
    + by rewrite (Hsec _ _ Hg), !append_nil_r.
    + rewrite WriteString_created. by rewrite append_nil_l.
  - rewrite WriteString_created, processPlansFile_eq. cbn [files]. rewrite Hg1.
    destruct (skipped (files w !! "govcloud-plans.txt")) eqn:Hg.
    + by rewrite (Hsec _ _ Hg), !append_nil_r.
    + by rewrite WriteString_created, !append_assoc.
Qed.

(** X10.  When the report file can be created, [generatePRMarkdown] succeeds
    and the file holds the title, then the sections of the commercial file,
    then those of the govcloud file (nothing for a file that is skipped);
    no other file changes and no executor runs.  When it cannot be created,
    the error is returned and nothing changes. *)
Theorem generatePRMarkdown_layout (h : Host) (pg : PlanGenerator) (w : World) :
  match createErr h "pr-ready.md" with
  | Some e => generatePRMarkdown h pg w = (Some e, w)
  | None =>
      generatePRMarkdown h pg w =
      (None,
       mkWorld
         (<["pr-ready.md" :=
              reportTitle
              +:+ sectionsOf h pg false (files w !! "commercial-plans.txt")
              +:+ sectionsOf h pg true (files w !! "govcloud-plans.txt")]> (files w))
         (calls w))
  end.
Proof.
  destruct (createErr h "pr-ready.md") as [e|] eqn:Hcreate.
  - unfold generatePRMarkdown. by rewrite Hcreate.
  - by apply generatePRMarkdown_created.
Qed.



(** *** What one group does, whatever else the directory holds *)

Lemma planEachEffect_written (h : Host) (plans : list string) (c : string) :
  is_Some (written (planEachEffect h plans c)).
Proof.
  revert c; induction plans as [|p plans IH]; intros c; simpl; [eauto|].
  destruct (Output h (planArgv p)) as [out [e|]]; simpl; eauto.
Qed.

Lemma planEach_effect (h : Host) (plans : list string) (f c : string) (w : World) :
  files w !! f = Some c ->
  planEach h plans f w = applyEffect f (planEachEffect h plans c) w.
Proof.
  revert c w; induction plans as [|p plans IH]; intros c w Hf; simpl.
  - unfold applyEffect; simpl. by rewrite insert_id, app_nil_r, world_eq.
  - destruct (Output h (planArgv p)) as [out [e|]] eqn:Ho.
    + unfold applyEffect, started; simpl. by rewrite insert_id.
    + rewrite (WriteString_twice f c) by done.
      rewrite (IH ((c +:+ out) +:+ nl)) by (simpl; by rewrite lookup_insert_eq).
      unfold applyEffect; simpl.
      destruct (planEachEffect_written h plans ((c +:+ out) +:+ nl)) as [x ->].
      by rewrite insert_insert_eq, <- app_assoc.
Qed.

Lemma targetedGroup_effect (h : Host) (plans : list string) (f placeholder : string)
  (w : World) :
  targetedGroup h plans f placeholder w =
  applyEffect f (targetedGroupEffect h plans f placeholder) w.
Proof.
  destruct plans as [|p plans]; unfold targetedGroup, targetedGroupEffect.
  - unfold WriteFile, applyEffect. destruct (createErr h f); simpl.
    + by rewrite app_nil_r, world_eq.
    + by rewrite app_nil_r.
  - unfold runTargetedPlanGroup. destruct (createErr h f).
    + unfold applyEffect; simpl. by rewrite app_nil_r, world_eq.
    + rewrite (planEach_effect h (p :: plans) f "") by (simpl; by rewrite lookup_insert_eq).
      unfold applyEffect. cbn [files calls].
      destruct (planEachEffect_written h (p :: plans) "") as [x ->].
      by rewrite insert_insert_eq.
Qed.

Lemma runCommand_effect (h : Host) (command : string) (args : list string) (f : string)
  (w : World) :
  runCommand h command args f w = applyEffect f (runCommandEffect h command args f) w.
Proof.
  unfold runCommand, runCommandEffect, applyEffect, WriteFile, started.
  destruct (Output h (command :: args)) as [out [e|]]; [done|].
  by destruct (createErr h f).
Qed.

(** Effects on two different files can be applied in either order. *)
Lemma applyEffect_commute (f1 f2 : string) (e1 e2 : Effect) (w : World) :
  f1 <> f2 ->
  files (applyEffect f2 e2 (applyEffect f1 e1 w).2).2 =
  files (applyEffect f1 e1 (applyEffect f2 e2 w).2).2 /\
  calls (applyEffect f2 e2 (applyEffect f1 e1 w).2).2 ≡ₚ
  calls (applyEffect f1 e1 (applyEffect f2 e2 w).2).2.
Proof.
  intros Hne. unfold applyEffect; simpl. split.
  - destruct (written e1), (written e2); try done. by apply insert_insert_ne.
  - rewrite <- !app_assoc. apply Permutation_app_head, Permutation_app_comm.
Qed.

(** X12.  The two groups of a targeted run do not depend on each other:
    whichever runs first, each ends with the same error, the files of the
    directory are the same, and the same executor invocations were started.
    The group that runs second is not held back by a failure of the first. *)
Theorem targeted_groups_commute (h : Host) (plans1 plans2 : list string)
  (f1 f2 placeholder1 placeholder2 : string) (w : World) :
  f1 <> f2 ->
  let first1 := targetedGroup h plans1 f1 placeholder1 w in
  let then2 := targetedGroup h plans2 f2 placeholder2 first1.2 in
  let first2 := targetedGroup h plans2 f2 placeholder2 w in
  let then1 := targetedGroup h plans1 f1 placeholder1 first2.2 in
  first1.1 = then1.1 /\ then2.1 = first2.1 /\
  files then2.2 = files then1.2 /\ calls then2.2 ≡ₚ calls then1.2.
Proof.
  intros Hne first1 then2 first2 then1. subst first1 then2 first2 then1.
  rewrite !targetedGroup_effect.
  split; [done|]. split; [done|]. by apply applyEffect_commute.
Qed.

Lemma targeted_groups_commute_witness :
  let first1 := targetedGroup Samples.oneBroken ["a"; "broken"; "c"] "commercial-plans.txt"
                  "none" Samples.emptyWorld in
  let then2 := targetedGroup Samples.oneBroken ["govcloud-x"] "govcloud-plans.txt"
                 "none" first1.2 in
  let first2 := targetedGroup Samples.oneBroken ["govcloud-x"] "govcloud-plans.txt"
                  "none" Samples.emptyWorld in
  let then1 := targetedGroup Samples.oneBroken ["a"; "broken"; "c"] "commercial-plans.txt"
                 "none" first2.2 in
  first1.1 = then1.1 /\ then2.1 = first2.1 /\
  files then2.2 = files then1.2 /\ calls then2.2 ≡ₚ calls then1.2.
Proof.
  apply (targeted_groups_commute Samples.oneBroken ["a"; "broken"; "c"] ["govcloud-x"]
           "commercial-plans.txt" "govcloud-plans.txt" "none" "none" Samples.emptyWorld).
  discriminate.
Defined.

(** X13.  A batch run starts both executor runs whatever either returns,
    the commercial and the govcloud one, each once.  A group that succeeds
    leaves its captured output in its file; a group that fails leaves its
    file as it was.  The outcome does not depend on which of the two is
    taken first. *)
Theorem batch_runs_both_groups (h : Host) (pg : PlanGenerator) (w : World) :
  let c := runCommandEffect h "kitman" (commercialArgs pg) "commercial-plans.txt" in
  let g := runCommandEffect h "kitman" (govcloudArgs pg) "govcloud-plans.txt" in
  let r := planAllGroups h pg w in
  r.1 = (failure c, failure g) /\
  calls r.2 = calls w ++ ["kitman" :: commercialArgs pg; "kitman" :: govcloudArgs pg] /\
  files r.2 !! "commercial-plans.txt" =
    match failure c with
    | Some _ => files w !! "commercial-plans.txt"
    | None => Some (Output h ("kitman" :: commercialArgs pg)).1
    end /\
  files r.2 !! "govcloud-plans.txt" =
    match failure g with
    | Some _ => files w !! "govcloud-plans.txt"
    | None => Some (Output h ("kitman" :: govcloudArgs pg)).1
    end /\
  files r.2 =
    files (runCommand h "kitman" (commercialArgs pg) "commercial-plans.txt"
             (runCommand h "kitman" (govcloudArgs pg) "govcloud-plans.txt" w).2).2.
Proof.
  intros c g r. subst r. rewrite planAllGroups_eq. cbn [fst snd].
  rewrite !runCommand_effect. fold c g.
  assert (Hc : invoked c = ["kitman" :: commercialArgs pg] /\
               written c = match failure c with
                           | Some _ => None
                           | None => Some (Output h ("kitman" :: commercialArgs pg)).1
                           end).
  { subst c. unfold runCommandEffect.
    destruct (Output h ("kitman" :: commercialArgs pg)) as [out [e|]]; [done|].
    by destruct (createErr h "commercial-plans.txt"). }
  assert (Hg : invoked g = ["kitman" :: govcloudArgs pg] /\
               written g = match failure g with
                           | Some _ => None
                           | None => Some (Output h ("kitman" :: govcloudArgs pg)).1
                           end).
  { subst g. unfold runCommandEffect.
    destruct (Output h ("kitman" :: govcloudArgs pg)) as [out [e|]]; [done|].
    by destruct (createErr h "govcloud-plans.txt"). }
  destruct Hc as [Hci Hcw], Hg as [Hgi Hgw].
  split; [done|]. split.
  { unfold applyEffect; simpl. by rewrite Hci, Hgi, <- app_assoc. }
  split; [|split].
  - unfold applyEffect; cbn [files snd]. rewrite Hcw, Hgw.
    destruct (failure c), (failure g);
      rewrite ?(lookup_insert_ne _ "govcloud-plans.txt" "commercial-plans.txt") by done;
      by rewrite ?lookup_insert_eq.
  - unfold applyEffect; cbn [files snd]. rewrite Hcw, Hgw.
    destruct (failure c), (failure g);
      rewrite ?lookup_insert_eq;
      rewrite ?(lookup_insert_ne _ "commercial-plans.txt" "govcloud-plans.txt") by done;
      done.
  - by apply applyEffect_commute.
Qed.

(** X14.  The placeholder that a targeted run writes for a class without
    plans is the text that report generation skips: when the placeholder
    could be written, [processPlansFile] on that file afterwards returns no
    error and leaves everything as it is, so the empty class adds no section
    to the report. *)
Theorem empty_group_placeholder_skipped (h : Host) (pg : PlanGenerator)
  (affectedPlans : list string) (w : World) :
  let w1 := (targetedGroups h affectedPlans w).2 in
  ((partitionPlans affectedPlans).1 = [] -> createErr h "commercial-plans.txt" = None ->
   files w1 !! "commercial-plans.txt" = Some ("No commercial plans needed" +:+ nl) /\
   forall output isGovcloud,
     processPlansFile h pg "commercial-plans.txt" output isGovcloud w1 = (None, w1)) /\
  ((partitionPlans affectedPlans).2 = [] -> createErr h "govcloud-plans.txt" = None ->
   files w1 !! "govcloud-plans.txt" = Some ("No GovCloud plans needed" +:+ nl) /\
   forall output isGovcloud,
     processPlansFile h pg "govcloud-plans.txt" output isGovcloud w1 = (None, w1)).
Proof.
  intros w1. subst w1. rewrite targetedGroups_eq. cbn [snd]. split.
  - intros Hnil Hc. rewrite Hnil.
    assert (Hf : files (targetedGroup h (partitionPlans affectedPlans).2
                          "govcloud-plans.txt" ("No GovCloud plans needed" +:+ nl)
                          (targetedGroup h [] "commercial-plans.txt"
                             ("No commercial plans needed" +:+ nl) w).2).2
                 !! "commercial-plans.txt" = Some ("No commercial plans needed" +:+ nl)).
    { rewrite targetedGroup_frame by done. by apply targetedGroup_empty. }
    split; [exact Hf|]. intros output isGovcloud.
    rewrite processPlansFile_eq, Hf. reflexivity.
  - intros Hnil Hc. rewrite Hnil.
    assert (Hf : files (targetedGroup h [] "govcloud-plans.txt"
                          ("No GovCloud plans needed" +:+ nl)
                          (targetedGroup h (partitionPlans affectedPlans).1
                             "commercial-plans.txt"
                             ("No commercial plans needed" +:+ nl) w).2).2
                 !! "govcloud-plans.txt" = Some ("No GovCloud plans needed" +:+ nl)).
    { by apply targetedGroup_empty. }
    split; [exact Hf|]. intros output isGovcloud.
    rewrite processPlansFile_eq, Hf. reflexivity.
Qed.

Lemma empty_group_placeholder_skipped_witness :
  let w1 := (targetedGroups Samples.oneBroken ["a"; "b"] Samples.emptyWorld).2 in
  files w1 !! "govcloud-plans.txt" = Some ("No GovCloud plans needed" +:+ nl) /\
  forall output isGovcloud,
    processPlansFile Samples.oneBroken Samples.pg "govcloud-plans.txt" output isGovcloud w1
    = (None, w1).
Proof.
  apply (proj2 (empty_group_placeholder_skipped Samples.oneBroken Samples.pg ["a"; "b"]
                  Samples.emptyWorld)); reflexivity.
Defined.

Lemma targetedGroup_all_ok (h : Host) (plans : list string) (f placeholder : string)
  (w : World) :
  createErr h f = None -> Forall (succeeds h) plans ->
  targetedGroup h plans f placeholder w =
  (None,
   mkWorld (<[f := match plans with
                   | [] => placeholder
                   | _ :: _ => planOutputs h plans
                   end]> (files w))
           (calls w ++ map planArgv plans)).
Proof.
  intros Hc Hall. destruct plans as [|p plans].
  - unfold targetedGroup, WriteFile. rewrite Hc. simpl. by rewrite app_nil_r.
  - unfold targetedGroup. by rewrite runTargetedPlanGroup_ok.
Qed.

Lemma partitionPlans_perm (affectedPlans : list string) :
  (partitionPlans affectedPlans).1 ++ (partitionPlans affectedPlans).2 ≡ₚ affectedPlans.
Proof.
  rewrite PartitionFacts.partition_filter. simpl.
  rewrite Permutation_app_comm. apply filter_app_complement.
Qed.

(** X15.  A targeted run in which every plan succeeds and both files can be
    written ends without error; the executor was started once for every
    affected plan and for nothing else, the commercial plans first; each
    file holds the outputs of its plans, or the placeholder when its class
    has none. *)
Theorem targeted_run_all_succeed (h : Host) (affectedPlans : list string) (w : World) :
  Forall (succeeds h) affectedPlans ->
  createErr h "commercial-plans.txt" = None ->
  createErr h "govcloud-plans.txt" = None ->
  let r := runTargetedPlans h affectedPlans w in
  let commercialPlans := (partitionPlans affectedPlans).1 in
  let govcloudPlans := (partitionPlans affectedPlans).2 in
  r.1 = None /\
  calls r.2 = calls w ++ map planArgv (commercialPlans ++ govcloudPlans) /\
  map planArgv (commercialPlans ++ govcloudPlans) ≡ₚ map planArgv affectedPlans /\
  files r.2 !! "commercial-plans.txt" =
    Some (match commercialPlans with
          | [] => "No commercial plans needed" +:+ nl
          | _ :: _ => planOutputs h commercialPlans
          end) /\
  files r.2 !! "govcloud-plans.txt" =
    Some (match govcloudPlans with
          | [] => "No GovCloud plans needed" +:+ nl
          | _ :: _ => planOutputs h govcloudPlans
          end).
Proof.
  intros Hall Hc Hg r commercialPlans govcloudPlans.
  assert (Hboth : Forall (succeeds h) (commercialPlans ++ govcloudPlans)).
  { subst commercialPlans govcloudPlans. by rewrite partitionPlans_perm. }
  apply Forall_app in Hboth as [Hcp Hgp].
  subst r. unfold runTargetedPlans. rewrite targetedGroups_eq.
  fold commercialPlans govcloudPlans. cbn [fst snd].
  rewrite (targetedGroup_all_ok h commercialPlans) by done. cbn [fst snd].
  rewrite (targetedGroup_all_ok h govcloudPlans) by done. cbn [fst snd files calls].
  repeat split.
  - by rewrite map_app, app_assoc.
  - subst commercialPlans govcloudPlans. by rewrite partitionPlans_perm.
  - rewrite lookup_insert_ne by done. by rewrite lookup_insert_eq.
  - by rewrite lookup_insert_eq.
Qed.

Lemma targeted_run_all_succeed_witness :
  let r := runTargetedPlans Samples.oneBroken ["a"; "govcloud-b"; "c"] Samples.emptyWorld in
  let commercialPlans := (partitionPlans ["a"; "govcloud-b"; "c"]).1 in
  let govcloudPlans := (partitionPlans ["a"; "govcloud-b"; "c"]).2 in
  r.1 = None /\
  calls r.2 = calls Samples.emptyWorld ++ map planArgv (commercialPlans ++ govcloudPlans) /\
  map planArgv (commercialPlans ++ govcloudPlans) ≡ₚ map planArgv ["a"; "govcloud-b"; "c"] /\
  files r.2 !! "commercial-plans.txt" =
    Some (match commercialPlans with
          | [] => "No commercial plans needed" +:+ nl
          | _ :: _ => planOutputs Samples.oneBroken commercialPlans
          end) /\
  files r.2 !! "govcloud-plans.txt" =
    Some (match govcloudPlans with
          | [] => "No GovCloud plans needed" +:+ nl
          | _ :: _ => planOutputs Samples.oneBroken govcloudPlans
          end).
Proof.
  apply (targeted_run_all_succeed Samples.oneBroken ["a"; "govcloud-b"; "c"]
           Samples.emptyWorld); [repeat constructor | reflexivity | reflexivity].
Defined.

End RunFacts.

(** ** What the four patterns capture *)
Module CaptureFacts.
Import GoStrings Regexp Scanner Shapes StringFacts ContainsFacts.

Lemma run_Plus_eq (p : ascii -> bool) (k : list item) (rec : bool) (acc : list ascii)
  (s : string) :
  run (Plus p :: k) rec acc s =
  match s with
  | String c s' =>
      if p c then
        match run (Plus p :: k) rec (push rec c acc) s' with
        | Some r => Some r
        | None => run k rec (push rec c acc) s'
        end
      else None
  | EmptyString => None
  end.
Proof. by destruct s. Qed.

Lemma pushAll_String (rec : bool) (c : ascii) (t : string) (acc : list ascii) :
  pushAll rec (String c t) acc = pushAll rec t (push rec c acc).
Proof. unfold pushAll, push. destruct rec; [|done]. simpl. by rewrite <- app_assoc. Qed.

Lemma allOf_String (p : ascii -> bool) (c : ascii) (t : string) :
  allOf p (String c t) <-> p c = true /\ allOf p t.
Proof.
  unfold allOf. simpl. split; [intros H; by inversion H | intros [? ?]; by constructor].
Qed.

(** A literal prefix of the pattern is a prefix of the text. *)
Lemma run_lits (p : string) (k : list item) (rec : bool) (acc : list ascii)
  (s g : string) :
  run (lits p ++ k) rec acc s = Some g <->
  exists rest, s = p +:+ rest /\ run k rec (pushAll rec p acc) rest = Some g.
Proof.
  revert acc s; induction p as [|c p IH]; intros acc s.
  - change (lits "" ++ k) with k. split.
    + intros H. exists s. split; [done|]. unfold pushAll. by destruct rec.
    + intros (rest & -> & H). unfold pushAll in H. by destruct rec.
  - change (lits (String c p) ++ k) with (Lit c :: (lits p ++ k)).
    destruct s as [|c' s]; simpl.
    + split; [done | by intros (rest & ? & _)].
    + destruct (Ascii.eqb_spec c c') as [<-|Hne].
      * rewrite IH. split; intros (rest & Hs & H); exists rest.
        -- rewrite append_String, Hs, pushAll_String. done.
        -- rewrite append_String in Hs. injection Hs as ->.
           by rewrite pushAll_String in H.
      * split; [done|]. intros (rest & Hs & _). rewrite append_String in Hs. congruence.
Qed.

(** Whatever a [+] over a class matches is a non-empty run of the class. *)
Lemma run_Plus_some (p : ascii -> bool) (k : list item) (rec : bool) (s : string) :
  forall acc g,
    run (Plus p :: k) rec acc s = Some g ->
    exists taken rest,
      s = taken +:+ rest /\ taken <> "" /\ allOf p taken /\
      run k rec (pushAll rec taken acc) rest = Some g.
Proof.
  induction s as [|c s IH]; intros acc g; rewrite run_Plus_eq; [done|].
  destruct (p c) eqn:Hp; [|done].
  destruct (run (Plus p :: k) rec (push rec c acc) s) as [r|] eqn:Hr.
  - intros [= <-]. destruct (IH _ _ Hr) as (taken & rest & -> & _ & Hall & Hk).
    exists (String c taken), rest. rewrite pushAll_String, allOf_String. by repeat split.
  - intros Hk. exists (String c ""), s. rewrite pushAll_String, allOf_String.
    split; [done|]. split; [done|]. split; [split; [done | constructor]|].
    unfold pushAll. by destruct rec.
Qed.

(** A non-empty run of the class after which the rest of the pattern
    matches is enough for a match. *)
Lemma run_Plus_complete (p : ascii -> bool) (k : list item) (rec : bool) (taken : string) :
  forall acc rest,
    taken <> "" -> allOf p taken ->
    is_Some (run k rec (pushAll rec taken acc) rest) ->
    is_Some (run (Plus p :: k) rec acc (taken +:+ rest)).
Proof.
  induction taken as [|c t IH]; intros acc rest Hne Hall Hk; [done|].
  apply allOf_String in Hall as [Hc Ht].
  rewrite append_String, run_Plus_eq, Hc. rewrite pushAll_String in Hk.
  destruct t as [|c2 t].
  - change ("" +:+ rest) with rest.
    destruct (run (Plus p :: k) rec (push rec c acc) rest); [eauto|].
    unfold pushAll in Hk. by destruct rec.
  - destruct (IH (push rec c acc) rest) as [r ->]; eauto.
Qed.

Lemma string_of_rev_pushAll (taken : string) :
  string_of_list_ascii (rev (rev (list_ascii_of_string taken) ++ [])) = taken.
Proof. by rewrite app_nil_r, rev_involutive, string_of_list_ascii_of_string. Qed.

Lemma string_of_app (l k : list ascii) :
  string_of_list_ascii (l ++ k) = string_of_list_ascii l +:+ string_of_list_ascii k.
Proof. induction l as [|c l IH]; [done|]. simpl. by rewrite IH. Qed.

Lemma Find_some (re : list item) (line g : string) :
  FindStringSubmatch re line = Some g ->
  exists pre s, line = pre +:+ s /\ run re false [] s = Some g.
Proof.
  induction line as [|c line IH]; simpl.
  - destruct (run re false [] "") as [r|] eqn:Hr; [|done].
    intros [= <-]. by exists "", "".
  - destruct (run re false [] (String c line)) as [r|] eqn:Hr.
    + intros [= <-]. by exists "", (String c line).
    + intros (pre & s & -> & Hs)%IH. by exists (String c pre), s.
Qed.

Lemma Find_complete (re : list item) (pre s : string) :
  is_Some (run re false [] s) -> is_Some (FindStringSubmatch re (pre +:+ s)).
Proof.
  intros Hs. induction pre as [|c pre IH].
  - change ("" +:+ s) with s. destruct s; simpl; by destruct (run re false [] _); eauto.
  - rewrite append_String. simpl.
    by destruct (run re false [] (String c (pre +:+ s))); eauto.
Qed.

Lemma run_Lit (c : ascii) (k : list item) (rec : bool) (acc : list ascii) (s g : string) :
  run (Lit c :: k) rec acc s = Some g ->
  exists s', s = String c s' /\ run k rec (push rec c acc) s' = Some g.
Proof.
  destruct s as [|c' s']; simpl; [done|].
  destruct (Ascii.eqb c c') eqn:E; [|done].
  apply Ascii.eqb_eq in E as <-. eauto.
Qed.

Lemma run_Lit_same (c : ascii) (k : list item) (rec : bool) (acc : list ascii) (s : string) :
  run (Lit c :: k) rec acc (String c s) = run k rec (push rec c acc) s.
Proof. simpl. by rewrite Ascii.eqb_refl. Qed.

Lemma run_Class (p : ascii -> bool) (k : list item) (rec : bool) (acc : list ascii)
  (s g : string) :
  run (Class p :: k) rec acc s = Some g ->
  exists c s', s = String c s' /\ p c = true /\ run k rec (push rec c acc) s' = Some g.
Proof.
  destruct s as [|c' s']; simpl; [done|].
  destruct (p c') eqn:E; [|done]. eauto.
Qed.

(** The commercial environment pattern at one position. *)
Lemma run_envCommercial (s g : string) :
  run envRegexCommercial false [] s = Some g ->
  exists post,
    s = "/organizations/" +:+ g +:+ "/" +:+ post /\ g <> "" /\ allOf not_slash g.
Proof.
  unfold envRegexCommercial. intros (rest & -> & H)%run_lits.
  change (run (Plus not_slash :: [Close; Lit "/"%char]) true [] rest = Some g) in H.
  apply run_Plus_some in H as (taken & rest2 & -> & Hne & Hall & H).
  change (run [Lit "/"%char] false (pushAll true taken []) rest2 = Some g) in H.
  apply run_Lit in H as (post & -> & H).
  injection H as <-. cbn [push]. rewrite string_of_rev_pushAll. by exists post.
Qed.

Lemma run_envCommercial_complete (g post : string) :
  g <> "" -> allOf not_slash g ->
  is_Some (run envRegexCommercial false [] ("/organizations/" +:+ g +:+ "/" +:+ post)).
Proof.
  intros Hne Hall. unfold envRegexCommercial.
  assert (H : is_Some (run (Plus not_slash :: [Close; Lit "/"%char]) true []
                         (g +:+ "/" +:+ post))).
  { apply run_Plus_complete; [done..|].
    change (is_Some (run [Lit "/"%char] false (pushAll true g []) (String "/" post))).
    rewrite run_Lit_same. simpl. eauto. }
  destruct H as [r Hr]. exists r. apply run_lits. eexists. split; [done|]. exact Hr.
Qed.

(** The govcloud environment pattern at one position. *)
Lemma run_envGovcloud (s g : string) :
  run envRegexGovcloud false [] s = Some g ->
  exists t post,
    s = g +:+ post /\ g = "govcloud-" +:+ t /\ t <> "" /\ allOf not_slash t.
Proof.
  unfold envRegexGovcloud.
  change (run ([Open] ++ lits "govcloud-" ++ [Plus not_slash; Close]) false [] s)
    with (run (lits "govcloud-" ++ [Plus not_slash; Close]) true [] s).
  intros (rest & -> & H)%run_lits.
  apply run_Plus_some in H as (taken & post & -> & Hne & Hall & H).
  remember (pushAll true taken (pushAll true "govcloud-" [])) as acc eqn:Hacc.
  cbn [run] in H. injection H as <-. subst acc. exists taken, post.
  assert (Hg : string_of_list_ascii
                 (rev (pushAll true taken (pushAll true "govcloud-" [])))
               = "govcloud-" +:+ taken).
  { unfold pushAll. rewrite rev_app_distr, rev_involutive, !app_nil_r, rev_involutive.
    by rewrite string_of_app, !string_of_list_ascii_of_string. }
  rewrite Hg. by rewrite append_assoc.
Qed.

Lemma allOf_app (p : ascii -> bool) (a b : string) :
  allOf p (a +:+ b) <-> allOf p a /\ allOf p b.
Proof.
  induction a as [|c a IH].
  - change ("" +:+ b) with b. split; [intros H; split; [constructor | done] | by intros [_ ?]].
  - rewrite append_String, !allOf_String, IH. tauto.
Qed.

(** X16.  An environment name is always a non-empty piece of its line
    without a slash.  In the commercial pass it is a path segment that
    follows "/organizations/" and is closed by a slash, and a line that has
    such a segment always yields a name; in the govcloud pass it starts with
    "govcloud-" and has at least one more byte. *)
Theorem environment_captures (isGovcloud : bool) (line : string) :
  (forall g, Regexp.FindStringSubmatch (envRegex isGovcloud) line = Some g ->
     g <> "" /\ allOf not_slash g /\ Contains line g = true /\
     if isGovcloud
     then exists t, g = "govcloud-" +:+ t /\ t <> ""
     else Contains line ("/organizations/" +:+ g +:+ "/") = true) /\
  (forall pre g post,
     g <> "" -> allOf not_slash g ->
     line = pre +:+ "/organizations/" +:+ g +:+ "/" +:+ post ->
     is_Some (Regexp.FindStringSubmatch (envRegex false) line)).
Proof.
  split.
  - intros g (pre & s & -> & Hrun)%Find_some. destruct isGovcloud; simpl in Hrun.
    + apply run_envGovcloud in Hrun as (t & post & -> & Hg & Hne & Hall).
      repeat split.
      * rewrite Hg. done.
      * rewrite Hg. apply allOf_app. split; [|done]. unfold allOf. simpl.
        repeat constructor.
      * apply Contains_middle.
      * eauto.
    + apply run_envCommercial in Hrun as (post & -> & Hne & Hall).
      repeat split; try done.
      * apply Contains_iff. exists (pre +:+ "/organizations/"), ("/" +:+ post).
        by rewrite !append_assoc.
      * apply Contains_iff. exists pre, post. by rewrite !append_assoc.
  - intros pre g post Hne Hall ->. apply Find_complete.
    by apply run_envCommercial_complete.
Qed.

Lemma environment_captures_witness :
  is_Some (Regexp.FindStringSubmatch (envRegex false)
             ("cd " +:+ "/organizations/" +:+ "staging" +:+ "/" +:+ "eu-west-1/s3")).
Proof.
  apply (proj2 (environment_captures false
                  ("cd " +:+ "/organizations/" +:+ "staging" +:+ "/" +:+ "eu-west-1/s3"))
           "cd " "staging" "eu-west-1/s3");
    [discriminate | repeat constructor | reflexivity].
Defined.

(** The commercial region pattern at one position. *)
Lemma run_regionCommercial (s g : string) :
  run regionRegexCommercial false [] s = Some g ->
  commercialRegion g /\ exists post, s = "/" +:+ g +:+ "/" +:+ post.
Proof.
  unfold regionRegexCommercial.
  intros (s1 & -> & H)%run_Lit.
  change (run (Class lower :: Class lower :: Lit "-"%char :: Plus lower ::
               [Lit "-"%char; Class digit; Close; Lit "/"%char]) true [] s1 = Some g) in H.
  apply run_Class in H as (a & s2 & -> & Ha & H).
  apply run_Class in H as (b & s3 & -> & Hb & H).
  apply run_Lit in H as (s4 & -> & H).
  apply run_Plus_some in H as (mid & s5 & -> & Hne & Hall & H).
  apply run_Lit in H as (s6 & -> & H).
  apply run_Class in H as (d & s7 & -> & Hd & H).
  change (run [Lit "/"%char] false
            (d :: "-"%char :: pushAll true mid ["-"%char; b; a]) s7 = Some g) in H.
  apply run_Lit in H as (post & -> & H).
  remember (pushAll true mid ["-"%char; b; a]) as acc eqn:Hacc.
  cbn [run push] in H. injection H as <-. subst acc.
  assert (Hg : string_of_list_ascii
                 (rev (d :: "-"%char :: pushAll true mid ["-"%char; b; a]))
               = String a (String b ("-" +:+ mid +:+ "-" +:+ String d ""))).
  { unfold pushAll.
    change (d :: "-"%char :: ?l) with ([d; "-"%char] ++ l).
    rewrite !rev_app_distr, !rev_involutive, !string_of_app,
      !string_of_list_ascii_of_string. done. }
  cbn [rev] in Hg. rewrite Hg. split.
  - by exists a, b, mid, d.
  - exists post. by rewrite !append_String, !append_assoc.
Qed.

(** The govcloud region pattern at one position. *)
Lemma run_regionGovcloud (s g : string) :
  run regionRegexGovcloud false [] s = Some g ->
  govcloudRegion g /\ exists post, s = g +:+ post.
Proof.
  unfold regionRegexGovcloud.
  change (run ([Open] ++ lits "us-gov-" ++ [Plus lower; Lit "-"%char; Class digit; Close])
            false [] s)
    with (run (lits "us-gov-" ++ [Plus lower; Lit "-"%char; Class digit; Close]) true [] s).
  intros (rest & -> & H)%run_lits.
  apply run_Plus_some in H as (mid & s2 & -> & Hne & Hall & H).
  apply run_Lit in H as (s3 & -> & H).
  apply run_Class in H as (d & post & -> & Hd & H).
  remember (pushAll true mid (pushAll true "us-gov-" [])) as acc eqn:Hacc.
  cbn [run push] in H. injection H as <-. subst acc.
  assert (Hg : string_of_list_ascii
                 (rev (d :: "-"%char :: pushAll true mid (pushAll true "us-gov-" [])))
               = "us-gov-" +:+ mid +:+ "-" +:+ String d "").
  { unfold pushAll. rewrite app_nil_r.
    change (d :: "-"%char :: ?l) with ([d; "-"%char] ++ l).
    rewrite !rev_app_distr, !rev_involutive, !string_of_app,
      !string_of_list_ascii_of_string. done. }
  cbn [rev] in Hg. rewrite Hg. split.
  - by exists mid, d.
  - exists post. by rewrite !append_String, !append_assoc.
Qed.

Lemma empty_append (a : string) : "" +:+ a = a.
Proof. reflexivity. Qed.

Ltac push_append H :=
  repeat (rewrite append_String in H || rewrite empty_append in H).

(** No string has both forms: after "us-" the commercial form wants
    letters, a dash and a digit, the govcloud form "gov-" and more. *)
Lemma region_forms_disjoint (g : string) : commercialRegion g -> govcloudRegion g -> False.
Proof.
  intros (a & b & mid & d & -> & Ha & Hb & Hne & Hall & Hd)
         (mid' & d' & Heq & Hne' & Hall' & Hd').
  push_append Heq. injection Heq as -> -> Heq.
  destruct mid as [|m1 mid]; [done|]. push_append Heq. injection Heq as -> Heq.
  destruct mid as [|m2 mid]; push_append Heq; [discriminate Heq|]. injection Heq as -> Heq.
  destruct mid as [|m3 mid]; push_append Heq; [discriminate Heq|]. injection Heq as -> Heq.
  destruct mid as [|m4 mid]; push_append Heq.
  - injection Heq as Heq. destruct mid' as [|x mid']; [done|]. push_append Heq.
    injection Heq as _ Heq. destruct mid'; push_append Heq; discriminate Heq.
  - injection Heq as -> Heq.
    apply allOf_String in Hall as [_ Hall]. apply allOf_String in Hall as [_ Hall].
    apply allOf_String in Hall as [_ Hall]. apply allOf_String in Hall as [Hdash _].
    discriminate Hdash.
Qed.

(** X17.  A region name is a piece of its line of a fixed form.  In the
    commercial pass: two lower-case letters, a dash, lower-case letters, a
    dash and a digit, between two slashes.  In the govcloud pass: "us-gov-",
    lower-case letters, a dash and a digit.  No name has both forms, so the
    two passes never file blocks under the same region. *)
Theorem region_captures (line1 line2 g1 g2 : string) :
  Regexp.FindStringSubmatch (regionRegex false) line1 = Some g1 ->
  Regexp.FindStringSubmatch (regionRegex true) line2 = Some g2 ->
  commercialRegion g1 /\ Contains line1 ("/" +:+ g1 +:+ "/") = true /\
  govcloudRegion g2 /\ Contains line2 g2 = true /\
  g1 <> g2.
Proof.
  intros (pre1 & s1 & -> & H1)%Find_some (pre2 & s2 & -> & H2)%Find_some.
  simpl in H1, H2.
  apply run_regionCommercial in H1 as (Hc & post1 & ->).
  apply run_regionGovcloud in H2 as (Hg & post2 & ->).
  repeat split; try done.
  - apply Contains_iff. exists pre1, post1. by rewrite !append_assoc.
  - apply Contains_middle.
  - intros ->. by eapply region_forms_disjoint.
Qed.

Lemma region_captures_witness :
  commercialRegion "eu-west-1" /\
  Contains "/aws/organizations/staging/eu-west-1/s3" ("/" +:+ "eu-west-1" +:+ "/") = true /\
  govcloudRegion "us-gov-west-1" /\
  Contains "/aws/organizations/govcloud-staging/us-gov-west-1/s3" "us-gov-west-1" = true /\
  "eu-west-1" <> "us-gov-west-1".
Proof.
  apply (region_captures "/aws/organizations/staging/eu-west-1/s3"
           "/aws/organizations/govcloud-staging/us-gov-west-1/s3");
    reflexivity.
Defined.

End CaptureFacts.

(** ** Discovery: from the lines of the script to the plan step *)
Module DiscoveryFacts.
Import GoStrings Exec Shapes Discovery StringFacts ContainsFacts.

Lemma parsePlans_from (texts : list string) (plans : list string) :
  fold_left
    (fun plans text =>
       match planOfLine text with
       | Some planPath => plans ++ [planPath]
       | None => plans
       end) texts plans
  = plans ++ omap planOfLine texts.
Proof.
  revert plans; induction texts as [|t texts IH]; intros plans; simpl.
  - by rewrite app_nil_r.
  - rewrite IH. destruct (planOfLine t); [|done]. by rewrite <- app_assoc.
Qed.

Lemma parsePlans_omap (texts : list string) : parsePlans texts = omap planOfLine texts.
Proof. unfold parsePlans. by rewrite parsePlans_from. Qed.

(** Trimming on the left leaves an end of the text. *)
Lemma trimLeftFrom_suffix (s : string) :
  forall skip, exists pre, s = pre +:+ trimLeftFrom skip s.
Proof.
  induction s as [|c s IH]; intros skip; [exists ""; reflexivity|].
  cbn [trimLeftFrom]. destruct skip as [|k].
  - destruct (spaceWidth (String c s)) as [|k]; [exists ""; reflexivity|].
    destruct (IH k) as [pre Hpre]. exists (String c pre).
    by rewrite append_String, <- Hpre.
  - destruct (IH k) as [pre Hpre]. exists (String c pre).
    by rewrite append_String, <- Hpre.
Qed.

(** Trimming on the right leaves a start of the text. *)
Lemma trimRight_prefix (s : string) : exists post, s = trimRight s +:+ post.
Proof.
  induction s as [|c s IH]; [exists ""; reflexivity|]. cbn [trimRight].
  destruct (String.eqb (trimLeftFrom 0 (String c s)) ""); [eexists; reflexivity|].
  destruct IH as [post Hpost]. exists post. by rewrite append_String, <- Hpost.
Qed.

Lemma TrimSpace_inside (s : string) : Contains s (TrimSpace s) = true.
Proof.
  unfold TrimSpace. apply Contains_iff.
  destruct (trimLeftFrom_suffix s 0) as [pre Hpre].
  destruct (trimRight_prefix (trimLeftFrom 0 s)) as [post Hpost].
  exists pre, post. by rewrite <- Hpost.
Qed.

(** X18.  When discovery answers with what [findAffectedPlans] finds, a
    targeted run is taken exactly when the script exists, runs without
    error and at least one of its lines yields a plan; it then plans the
    paths of these lines.  In every other case (script missing, script
    failed, no plan line) the run falls back to the batch run, and the whole
    run is the run without [--targeted]. *)
Theorem discovery_decides_mode (sc : Script) (h : Host) (pg : PlanGenerator) (w : World) :
  affected h = findAffectedPlansOf sc ->
  let plans := omap planOfLine (scriptTexts sc) in
  let found :=
    scriptExists sc && bool_decide (scriptErr sc = None) && negb (bool_decide (plans = [])) in
  runPlans h pg true w =
    (if found then runTargetedPlans h plans w else runPlanAll h pg w) /\
  (found = false -> runPlanGenerator h pg true w = runPlanGenerator h pg false w).
Proof.
  intros Haff plans found.
  assert (Htp : targetedPlans h true = if found then Some plans else None).
  { unfold targetedPlans, findAffectedPlans. rewrite Haff. unfold findAffectedPlansOf.
    subst found. destruct (scriptExists sc); [|done].
    destruct (scriptErr sc) as [e|]; [done|]. rewrite parsePlans_omap. fold plans.
    simpl. destruct plans as [|p ps]; [done|]. done. }
  split.
  - unfold runPlans. rewrite Htp. by destruct found.
  - intros Hf. unfold runPlanGenerator, runPlans. rewrite Htp, Hf. done.
Qed.

Lemma discovery_decides_mode_witness :
  let sc := mkScript true None ["no plan in this line"] in
  let h := mkHost (Output Samples.bothDown) (createErr Samples.bothDown) Report.keysOf
             true None (findAffectedPlansOf sc) in
  let plans := omap planOfLine (scriptTexts sc) in
  let found :=
    scriptExists sc && bool_decide (scriptErr sc = None) && negb (bool_decide (plans = [])) in
  runPlans h Samples.pg true Samples.emptyWorld =
    (if found then runTargetedPlans h plans Samples.emptyWorld
     else runPlanAll h Samples.pg Samples.emptyWorld) /\
  (found = false ->
   runPlanGenerator h Samples.pg true Samples.emptyWorld =
   runPlanGenerator h Samples.pg false Samples.emptyWorld).
Proof.
  intros sc h. apply (discovery_decides_mode sc h Samples.pg Samples.emptyWorld).
  reflexivity.
Defined.

(** X19.  Every text of the script adds at most one plan, in the order of
    the texts, so there are never more plans than texts; a text without
    "kitman tg plan" adds none, whatever else it holds. *)
Theorem plans_follow_lines (texts : list string) :
  parsePlans texts = omap planOfLine texts /\
  length (parsePlans texts) <= length texts /\
  (forall a b, parsePlans (a ++ b) = parsePlans a ++ parsePlans b) /\
  (forall text, Contains text "kitman tg plan" = false -> planOfLine text = None).
Proof.
  repeat split.
  - apply parsePlans_omap.
  - rewrite parsePlans_omap. clear. induction texts as [|t texts IH]; [done|].
    change (omap planOfLine (t :: texts))
      with (match planOfLine t with
            | Some p => p :: omap planOfLine texts
            | None => omap planOfLine texts
            end).
    destruct (planOfLine t); simpl; lia.
  - intros a b. by rewrite !parsePlans_omap, omap_app.
  - intros text Hno. unfold planOfLine.
    destruct (Contains (TrimSpace text) "kitman tg plan") eqn:Hc; [|done].
    pose proof (Contains_trans _ _ _ (TrimSpace_inside text) Hc). congruence.
Qed.

(** *** Lines of ASCII bytes *)



Lemma spaceWidth_space (c : ascii) (s : string) :
  asciiSpace c = true -> spaceWidth (String c s) = 1.
Proof. intros H. unfold spaceWidth. by rewrite H. Qed.


Lemma fieldsFrom_space (c : ascii) (cur rest : string) :
  asciiSpace c = true ->
  fieldsFrom 0 cur (String c rest) = flush cur ++ fieldsFrom 0 "" rest.
Proof. intros H. cbn [fieldsFrom]. by rewrite spaceWidth_space. Qed.

Lemma fieldsFrom_spaces (sp : string) :
  forall rest, allOf asciiSpace sp -> fieldsFrom 0 "" (sp +:+ rest) = fieldsFrom 0 "" rest.
Proof.
  induction sp as [|c sp IH]; intros rest Hall; [done|].
  apply CaptureFacts.allOf_String in Hall as [Hc Hs].
  rewrite append_String, fieldsFrom_space by done. by rewrite IH.
Qed.

Lemma fieldsFrom_trailing (sp : string) :
  forall cur, allOf asciiSpace sp -> fieldsFrom 0 cur sp = flush cur.
Proof.
  destruct sp as [|c sp]; intros cur Hall; [done|].
  apply CaptureFacts.allOf_String in Hall as [Hc Hs].
  rewrite fieldsFrom_space by done.
  rewrite <- (append_nil_r sp), fieldsFrom_spaces by done. simpl. by rewrite app_nil_r.
Qed.





(** *** Cutting the file name off a path *)








Lemma flush_nonempty (c : ascii) (s : string) : flush (String c s) = [String c s].
Proof. reflexivity. Qed.





End DiscoveryFacts.
